(** * Bitmain I2C high level analyzer: a shallow embedding of
      [HighLevelAnalyzer.py] and the properties of its frame decoder.

    The analyzer is a Python class [Hla] whose method [decode] is called once
    per bus event (start, address, data, stop) and mutates the fields of
    [self].  Here [self] is an explicit record, [decode] is a function from a
    state and an event to an outcome (new state, printed diagnostics, and
    either a returned value or a raised exception). *)

From Stdlib Require Import ZArith Lia Bool.
From Stdlib Require Import Strings.String Strings.Ascii Strings.Byte.
From Stdlib Require Import DecimalString.
From stdpp Require Import base option list strings gmap.

Local Open Scope string_scope.
Local Open Scope Z_scope.

(** ** Python values used by the analyzer *)

(** An element of a [bytes] or [bytearray] object read as an [int]. *)
Definition byte_to_Z (b : byte) : Z := Z.of_N (Byte.to_N b).

(** [bytes([n])[0]] for [0 <= n < 256]; out of range values are not used. *)
Definition byte_of_Z (n : Z) : byte :=
  match Byte.of_N (Z.to_N n) with
  | Some b => b
  | None => x00
  end.

(** [f"{n}"] for an [int]. *)
Definition str (n : Z) : string := NilZero.string_of_int (Z.to_int n).

Definition hex_digit (upper : bool) (d : Z) : ascii :=
  if d <? 10 then ascii_of_N (Z.to_N (48 + d))
  else ascii_of_N (Z.to_N ((if upper then 55 else 87) + d)).

(** [format(x, '02x')] and [f"{x:02X}"] for a byte. *)
Definition hex2 (upper : bool) (b : byte) : string :=
  let x := byte_to_Z b in
  String (hex_digit upper (x / 16)) (String (hex_digit upper (x mod 16)) EmptyString).

(** [''.join(format(x, '02x') for x in payload)]. *)
Definition hex_join (payload : list byte) : string :=
  fold_right (fun b acc => hex2 false b +:+ acc) "" payload.

(** ** Command tables *)

Definition apw_types : gmap Z string :=
  list_to_map [ (131, "set_voltage") ].

Definition pic_types : gmap Z string :=
  list_to_map
    [ (2, "write_app"); (6, "jump_app"); (7, "init"); (9, "erase_app");
      (16, "set_something_3"); (21, "power_switch"); (22, "heart_beat");
      (23, "get_fw_version"); (40, "get_something_9"); (41, "get_voltage");
      (43, "get_something_5"); (49, "set_something_1") ].

(** [get_type]: the [KeyError] of a missing code is caught and turned into
    ["unknown"]. *)
Definition get_type (dev : string) (code : Z) : string :=
  if String.eqb dev "APW" then default "unknown" (apw_types !! code)
  else if String.eqb dev "dsPIC" then default "unknown" (pic_types !! code)
  else "unknown".

(** ** Frames *)

(** The [data] dictionary of an incoming frame, restricted to the keys the
    analyzer reads; [None] is an absent key. *)
Record FrameData := mkData {
  d_error : option string;
  d_address : option (list byte);
  d_read : option bool;
  d_data : option (list byte)
}.

(** An incoming frame of the I2C analyzer. *)
Record I2cFrame := mkI2c {
  ftype : string;
  start_time : Z;
  end_time : Z;
  data : FrameData
}.

(** The rendered payload of an emitted frame.  [PVolt v] stands for the
    string [f"{volt:10.3f}V"] with
    [volt = v * 3.3 * 0.000244140625 * 7.599999904632568]; the floating point
    product and its formatting are kept symbolic. *)
Inductive Payload :=
| PStr (s : string)
| PVolt (v : Z).

(** The frame returned by [decode] on a completed protocol frame. *)
Record AnalyzerFrame := mkFrame {
  a_type : string;
  a_start_time : option Z;
  a_end_time : option Z;
  a_direction : string;
  a_len : string;
  a_code : string;
  a_payload : Payload;
  a_checksum : string
}.

Inductive Exn :=
| KeyError (k : string)
| IndexError.

Inductive Ret :=
| Return (r : option AnalyzerFrame)
| Raise (e : Exn).

(** ** The analyzer state *)

Record Hla := mkHla {
  byte_pos : Z;
  start_of_transaction : option Z;
  start_of_frame : option Z;
  end_of_frame : option Z;
  read : bool;
  last_read : bool;
  for_us : bool;
  preamble_offset : Z;
  frame_len : Z;
  code : Z;
  type : string;
  payload : list byte;
  checksum_read : Z;
  checksum_calc : Z
}.

(** [Hla.__init__] *)
Definition init : Hla :=
  {| byte_pos := 0;
     start_of_transaction := None;
     start_of_frame := None;
     end_of_frame := None;
     read := false;
     last_read := true;
     for_us := false;
     preamble_offset := 0;
     frame_len := 99;
     code := 99;
     type := "";
     payload := [];
     checksum_read := 0;
     checksum_calc := 0 |}.

Definition set_byte_pos (v : Z) (s : Hla) : Hla :=
  mkHla v (start_of_transaction s) (start_of_frame s) (end_of_frame s) (read s)
    (last_read s) (for_us s) (preamble_offset s) (frame_len s) (code s) (type s)
    (payload s) (checksum_read s) (checksum_calc s).

Definition set_start_of_transaction (v : option Z) (s : Hla) : Hla :=
  mkHla (byte_pos s) v (start_of_frame s) (end_of_frame s) (read s)
    (last_read s) (for_us s) (preamble_offset s) (frame_len s) (code s) (type s)
    (payload s) (checksum_read s) (checksum_calc s).

Definition set_start_of_frame (v : option Z) (s : Hla) : Hla :=
  mkHla (byte_pos s) (start_of_transaction s) v (end_of_frame s) (read s)
    (last_read s) (for_us s) (preamble_offset s) (frame_len s) (code s) (type s)
    (payload s) (checksum_read s) (checksum_calc s).

Definition set_end_of_frame (v : option Z) (s : Hla) : Hla :=
  mkHla (byte_pos s) (start_of_transaction s) (start_of_frame s) v (read s)
    (last_read s) (for_us s) (preamble_offset s) (frame_len s) (code s) (type s)
    (payload s) (checksum_read s) (checksum_calc s).

Definition set_read (v : bool) (s : Hla) : Hla :=
  mkHla (byte_pos s) (start_of_transaction s) (start_of_frame s) (end_of_frame s) v
    (last_read s) (for_us s) (preamble_offset s) (frame_len s) (code s) (type s)
    (payload s) (checksum_read s) (checksum_calc s).

Definition set_last_read (v : bool) (s : Hla) : Hla :=
  mkHla (byte_pos s) (start_of_transaction s) (start_of_frame s) (end_of_frame s) (read s)
    v (for_us s) (preamble_offset s) (frame_len s) (code s) (type s)
    (payload s) (checksum_read s) (checksum_calc s).

Definition set_for_us (v : bool) (s : Hla) : Hla :=
  mkHla (byte_pos s) (start_of_transaction s) (start_of_frame s) (end_of_frame s) (read s)
    (last_read s) v (preamble_offset s) (frame_len s) (code s) (type s)
    (payload s) (checksum_read s) (checksum_calc s).

Definition set_preamble_offset (v : Z) (s : Hla) : Hla :=
  mkHla (byte_pos s) (start_of_transaction s) (start_of_frame s) (end_of_frame s) (read s)
    (last_read s) (for_us s) v (frame_len s) (code s) (type s)
    (payload s) (checksum_read s) (checksum_calc s).

Definition set_frame_len (v : Z) (s : Hla) : Hla :=
  mkHla (byte_pos s) (start_of_transaction s) (start_of_frame s) (end_of_frame s) (read s)
    (last_read s) (for_us s) (preamble_offset s) v (code s) (type s)
    (payload s) (checksum_read s) (checksum_calc s).

Definition set_code (v : Z) (s : Hla) : Hla :=
  mkHla (byte_pos s) (start_of_transaction s) (start_of_frame s) (end_of_frame s) (read s)
    (last_read s) (for_us s) (preamble_offset s) (frame_len s) v (type s)
    (payload s) (checksum_read s) (checksum_calc s).

Definition set_type (v : string) (s : Hla) : Hla :=
  mkHla (byte_pos s) (start_of_transaction s) (start_of_frame s) (end_of_frame s) (read s)
    (last_read s) (for_us s) (preamble_offset s) (frame_len s) (code s) v
    (payload s) (checksum_read s) (checksum_calc s).

Definition set_payload (v : list byte) (s : Hla) : Hla :=
  mkHla (byte_pos s) (start_of_transaction s) (start_of_frame s) (end_of_frame s) (read s)
    (last_read s) (for_us s) (preamble_offset s) (frame_len s) (code s) (type s)
    v (checksum_read s) (checksum_calc s).

Definition set_checksum_read (v : Z) (s : Hla) : Hla :=
  mkHla (byte_pos s) (start_of_transaction s) (start_of_frame s) (end_of_frame s) (read s)
    (last_read s) (for_us s) (preamble_offset s) (frame_len s) (code s) (type s)
    (payload s) v (checksum_calc s).

Definition set_checksum_calc (v : Z) (s : Hla) : Hla :=
  mkHla (byte_pos s) (start_of_transaction s) (start_of_frame s) (end_of_frame s) (read s)
    (last_read s) (for_us s) (preamble_offset s) (frame_len s) (code s) (type s)
    (payload s) (checksum_read s) v.

(** Projections of updated states. *)
Ltac hla_simpl :=
  cbn [byte_pos start_of_transaction start_of_frame end_of_frame read last_read
       for_us preamble_offset frame_len code type payload checksum_read
       checksum_calc set_byte_pos set_start_of_transaction set_start_of_frame
       set_end_of_frame set_read set_last_read set_for_us set_preamble_offset
       set_frame_len set_code set_type set_payload set_checksum_read
       set_checksum_calc].

Ltac hla_simpl_in H :=
  cbn [byte_pos start_of_transaction start_of_frame end_of_frame read last_read
       for_us preamble_offset frame_len code type payload checksum_read
       checksum_calc set_byte_pos set_start_of_transaction set_start_of_frame
       set_end_of_frame set_read set_last_read set_for_us set_preamble_offset
       set_frame_len set_code set_type set_payload set_checksum_read
       set_checksum_calc] in H.

(** What one call of [decode] leaves behind. *)
Record Outcome := mkOut {
  st : Hla;
  printed : list string;
  ret : Ret
}.

(** ** [Hla.decode] *)

Section Decode.

(** The [bm_device] setting, fixed for a decoding session. *)
Variable bm_device : string.

Definition expected_addr : Z :=
  if String.eqb bm_device "APW" then 16
  else if String.eqb bm_device "dsPIC" then 32
  else 255.

(** APW response checksum is little endian. *)
Definition checksum_le (self : Hla) : bool :=
  String.eqb bm_device "APW" && read self.

(** The [frame.type == 'start'] branch. *)
Definition decode_start (self : Hla) (frame : I2cFrame) : Outcome :=
  let self := set_start_of_transaction (Some (start_time frame)) self in
  let self :=
    if byte_pos self =? 0 then set_start_of_frame (Some (start_time frame)) self
    else self in
  mkOut self [] (Return None).

(** The [frame.type == 'address'] branch. *)
Definition decode_address (self : Hla) (frame : I2cFrame) : Outcome :=
  match d_address (data frame) with
  | None => mkOut self [] (Raise (KeyError "address"))
  | Some bs =>
    match bs !! 0%nat with
    | None => mkOut self [] (Raise IndexError)
    | Some a =>
      if byte_to_Z a =? expected_addr then
        let self := set_for_us true self in
        match d_read (data frame) with
        | None => mkOut self [] (Raise (KeyError "read"))
        | Some r =>
          let self := set_read r self in
          let self :=
            if read self && String.eqb bm_device "dsPIC"
            then set_preamble_offset 0 self
            else set_preamble_offset 2 self in
          mkOut self [] (Return None)
        end
      else mkOut (set_for_us false self) [] (Return None)
    end
  end.

(** The parsing chain of the data branch (the [if]/[elif] on the byte
    position that follows the checksum accumulation). *)
Definition parse_data (self : Hla) (b : byte) : Hla :=
  let raw := byte_to_Z b in
  if byte_pos self =? 0 + preamble_offset self then
    set_frame_len raw self
  else if byte_pos self =? 1 + preamble_offset self then
    let self :=
      if raw =? 1
      then set_frame_len 2 (set_code (frame_len self) self)
      else set_code raw self in
    set_type (get_type bm_device (code self)) self
  else if byte_pos self =? frame_len self - 2 + preamble_offset self then
    if checksum_le self
    then set_checksum_read raw self
    else set_checksum_read (Z.shiftl raw 8) self
  else if byte_pos self =? frame_len self - 1 + preamble_offset self then
    if checksum_le self
    then set_checksum_read (checksum_read self + Z.shiftl raw 8) self
    else set_checksum_read (checksum_read self + raw) self
  else if byte_pos self >=? 2 + preamble_offset self then
    set_payload (payload self ++ [b]) self
  else self.

(** The checksum accumulation of the data branch. *)
Definition accumulate (self : Hla) (b : byte) : Hla :=
  if (byte_pos self >=? 0 + preamble_offset self)
     && (byte_pos self <? frame_len self - 2 + preamble_offset self)
  then set_checksum_calc (checksum_calc self + byte_to_Z b) self
  else self.

(** The preamble check of the data branch: [Some msgs] when the branch
    returns early (after printing [msgs]), [None] when it falls through. *)
Definition check_preamble (self : Hla) (b : byte) : option (list string) :=
  let raw := byte_to_Z b in
  if byte_pos self =? 0 then
    if preamble_offset self =? 2 then
      Some (if negb (raw =? 85)
            then ["BM I2C: malformed command, preamble[0]=0x" +:+ hex2 true b
                    +:+ ", expected 0x55"]
            else [])
    else None
  else if byte_pos self =? 1 then
    if preamble_offset self =? 2 then
      Some (if negb (raw =? 170)
            then ["BM I2C: malformed command, preamble[1]=0x" +:+ hex2 true b
                    +:+ ", expected 0xAA"]
            else [])
    else None
  else None.

(** The [frame.type == 'data'] branch. *)
Definition decode_data (self : Hla) (frame : I2cFrame) : Outcome :=
  if negb (for_us self) then mkOut self [] (Return None) else
  match d_data (data frame) with
  | None => mkOut self [] (Raise (KeyError "data"))
  | Some bs =>
    match bs !! 0%nat with
    | None => mkOut self [] (Raise IndexError)
    | Some b =>
      match check_preamble self b with
      | Some msgs => mkOut self msgs (Return None)
      | None => mkOut (parse_data (accumulate self b) b) [] (Return None)
      end
    end
  end.

(** The types whose response direction gets the ["_resp"] suffix. *)
Definition resp_types : list string :=
  [ "set_something_3"; "power_switch"; "get_voltage"; "get_something_9";
    "get_fw_version"; "get_something_5"; "set_something_1" ].

Definition is_resp_type (t : string) : bool :=
  existsb (String.eqb t) resp_types.

(** [self._payload[i]] as an [int]; [None] is Python's [IndexError]. *)
Definition payload_at (self : Hla) (i : nat) : option Z :=
  byte_to_Z <$> payload self !! i.

(** The payload interpretation of the stop branch; [None] is an
    [IndexError] raised by one of the payload subscripts. *)
Definition format_payload (self : Hla) : option Payload :=
  let generic :=
    if (0 <? Z.of_nat (length (payload self)))%Z
    then hex_join (payload self) else "None" in
  if read self && String.eqb (type self) "get_fw_version" then
    p0 ← payload_at self 0; Some (PStr (str p0))
  else if negb (read self) && String.eqb (type self) "power_switch" then
    p0 ← payload_at self 0; Some (PStr (if p0 =? 0 then "OFF" else "ON"))
  else if read self && String.eqb (type self) "get_voltage" then
    p1 ← payload_at self 1; p2 ← payload_at self 2; Some (PVolt (p1 * 256 + p2))
  else if String.eqb (type self) "set_voltage" then
    p0 ← payload_at self 0; p1 ← payload_at self 1; Some (PVolt (p0 * 256 + p1))
  else Some (PStr generic).

(** The checksum verdict of an emitted frame. *)
Definition checksum_verdict (declared computed : Z) : string :=
  if declared =? 0 then "None"
  else if declared =? computed then "OK"
  else "KO".

(** The "init vars" block of the stop branch. *)
Definition reset_frame (self : Hla) : Hla :=
  let self := set_byte_pos 0 self in
  let self := set_frame_len 99 self in
  let self := set_payload [] self in
  let self := set_checksum_read 0 self in
  let self := set_checksum_calc 0 self in
  set_start_of_frame (start_of_transaction self) self.

(** The [frame.type == 'stop'] branch. *)
Definition decode_stop (self : Hla) (frame : I2cFrame) : Outcome :=
  if negb (for_us self) then mkOut self [] (Return None) else
  let self := set_end_of_frame (Some (end_time frame)) self in
  let self := set_last_read (read self) self in
  if byte_pos self =? frame_len self - 1 + preamble_offset self then
    let analyzer_frame_type :=
      if read self && is_resp_type (type self)
      then type self +:+ "_resp" else type self in
    match format_payload self with
    | None => mkOut self [] (Raise IndexError)
    | Some payload =>
      let checksum := checksum_verdict (checksum_read self) (checksum_calc self) in
      mkOut (reset_frame self) []
        (Return (Some
           {| a_type := analyzer_frame_type;
              a_start_time := start_of_frame self;
              a_end_time := end_of_frame self;
              a_direction := if last_read self then "response" else "request";
              a_len := str (frame_len self);
              a_code := str (code self);
              a_payload := payload;
              a_checksum := checksum |}))
    end
  else
    mkOut (set_byte_pos (byte_pos self + 1) self) [] (Return None).

Definition decode (self : Hla) (frame : I2cFrame) : Outcome :=
  match d_error (data frame) with
  | Some e => mkOut self ["BM I2C:  " +:+ e] (Return None)
  | None =>
    if String.eqb (ftype frame) "start" then decode_start self frame
    else if String.eqb (ftype frame) "address" then decode_address self frame
    else if String.eqb (ftype frame) "data" then decode_data self frame
    else if String.eqb (ftype frame) "stop" then decode_stop self frame
    else mkOut self [] (Return None)
  end.

(** ** Event sequences *)

(** What a sequence of [decode] calls leaves behind: the final state, the
    frames returned along the way, and the exception that ended the sequence,
    if one was raised ([decode] is not called again after an exception). *)
Record Run := mkRun {
  r_state : Hla;
  r_frames : list AnalyzerFrame;
  r_exn : option Exn
}.

Fixpoint run (self : Hla) (frames : list I2cFrame) : Run :=
  match frames with
  | [] => mkRun self [] None
  | f :: rest =>
    let o := decode self f in
    match ret o with
    | Raise e => mkRun (st o) [] (Some e)
    | Return r =>
      let k := run (st o) rest in
      mkRun (r_state k) (option_list r ++ r_frames k) (r_exn k)
    end
  end.

End Decode.

(** The events of the I2C analyzer, as it delivers them. *)
Definition no_data : FrameData := mkData None None None None.

Definition ev_start (t : Z) : I2cFrame := mkI2c "start" t t no_data.

Definition ev_address (a : byte) (rd : bool) : I2cFrame :=
  mkI2c "address" 0 0 (mkData None (Some [a]) (Some rd) None).

Definition ev_data (b : byte) : I2cFrame :=
  mkI2c "data" 0 0 (mkData None None None (Some [b])).

Definition ev_stop (t : Z) : I2cFrame := mkI2c "stop" t t no_data.

(** The target address of a profile, as the byte of an address event. *)
Definition addr_of (dev : string) : byte := byte_of_Z (expected_addr dev).

(** A bus transaction carrying the data bytes [bs], up to its stop event. *)
Definition txn_open (dev : string) (t : Z) (rd : bool) (bs : list byte) : list I2cFrame :=
  ev_start t :: ev_address (addr_of dev) rd :: map ev_data bs.

(** One bus transaction carrying the data bytes [bs]. *)
Definition txn (dev : string) (t e : Z) (rd : bool) (bs : list byte) : list I2cFrame :=
  txn_open dev t rd bs ++ [ev_stop e].

(** The protocol as the analyzer expects it: every byte in a transaction of
    its own, [ts] giving the start and stop times. *)
Fixpoint txns (dev : string) (rd : bool) (ts : Z -> Z * Z) (k : Z) (bs : list byte)
  : list I2cFrame :=
  match bs with
  | [] => []
  | b :: rest => txn dev (ts k).1 (ts k).2 rd [b] ++ txns dev rd ts (k + 1) rest
  end.

Definition bytes_of (l : list Z) : list byte := map byte_of_Z l.

(** ** Scenarios and the quantities the properties are stated with *)

(** The preamble length the address branch derives from the direction. *)
Definition preamble_of (dev : string) (rd : bool) : Z :=
  if rd && String.eqb dev "dsPIC" then 0 else 2.

(** The number of payload bytes the interpretation of a completed frame
    subscripts, by type and direction. *)
Definition payload_needed (self : Hla) : nat :=
  if read self && String.eqb (type self) "get_fw_version" then 1
  else if negb (read self) && String.eqb (type self) "power_switch" then 1
  else if read self && String.eqb (type self) "get_voltage" then 3
  else if String.eqb (type self) "set_voltage" then 2
  else 0.

(** The fields a data event never touches. *)
Definition same_context (s s' : Hla) : Prop :=
  byte_pos s' = byte_pos s /\ start_of_frame s' = start_of_frame s /\
  for_us s' = for_us s /\ read s' = read s /\
  preamble_offset s' = preamble_offset s.

(** The two checksum bytes of a frame, each in a transaction of its own: the
    first one at position [frame_len - 2 + preamble_offset], then the stop of
    its transaction, the start and address of the next transaction (same
    direction), and the second byte. *)
Definition checksum_events (dev : string) (self : Hla) (b1 b2 : byte) (e t : Z)
  : list I2cFrame :=
  [ ev_data b1; ev_stop e; ev_start t; ev_address (addr_of dev) (read self);
    ev_data b2 ].

(** The value two checksum bytes stand for, in the byte order of the
    profile and direction. *)
Definition assembled (dev : string) (self : Hla) (b1 b2 : byte) : Z :=
  if checksum_le dev self
  then byte_to_Z b1 + Z.shiftl (byte_to_Z b2) 8
  else Z.shiftl (byte_to_Z b1) 8 + byte_to_Z b2.

(** The state a for-us transaction is in after its start and address
    events. *)
Definition addressed (dev : string) (self : Hla) (t : Z) (rd : bool) : Hla :=
  set_preamble_offset (preamble_of dev rd)
    (set_read rd
       (set_for_us true
          (if byte_pos self =? 0
           then set_start_of_frame (Some t) (set_start_of_transaction (Some t) self)
           else set_start_of_transaction (Some t) self))).

Definition sum_bytes (l : list byte) : Z :=
  fold_right (fun b acc => byte_to_Z b + acc) 0 l.

(** The sum of the bytes of [fr] (the byte at index [i] being the one
    dispatched at position [i]) whose positions lie in [[p, L - 2 + p)]. *)
Definition region_sum (p L : Z) (fr : list byte) : Z :=
  sum_bytes (take (Z.to_nat (L - 2)) (drop (Z.to_nat p) fr)).

(** The declared length after a data byte [raw] at position [pos], and what
    the byte adds to the computed checksum, [L] being the declared length
    before the byte. *)
Definition next_len (p pos L raw : Z) : Z :=
  if pos <? p then L
  else if pos =? p then raw
  else if (pos =? p + 1) && (raw =? 1) then 2
  else L.

Definition added (p pos L raw : Z) : Z :=
  if (p <=? pos) && (pos <? L - 2 + p) then raw else 0.

(** A fresh analyzer inside a transaction addressed to its device. *)
Definition listening : Hla := set_for_us true init.

(** A dsPIC read frame of declared length 5 at its last position, with the
    checksum [declared] read and [calc] accumulated. *)
Definition closing (rd : bool) (ty : string) (pl : list byte) (declared calc : Z) : Hla :=
  {| byte_pos := 4;
     start_of_transaction := Some 40;
     start_of_frame := Some 0;
     end_of_frame := None;
     read := rd;
     last_read := rd;
     for_us := true;
     preamble_offset := 0;
     frame_len := 5;
     code := 22;
     type := ty;
     payload := pl;
     checksum_read := declared;
     checksum_calc := calc |}.

(** A dsPIC write frame after its length byte 23, at the code position. *)
Definition at_code_position : Hla :=
  {| byte_pos := 3;
     start_of_transaction := Some 30;
     start_of_frame := Some 0;
     end_of_frame := Some 25;
     read := false;
     last_read := false;
     for_us := true;
     preamble_offset := 2;
     frame_len := 23;
     code := 99;
     type := "";
     payload := [];
     checksum_read := 0;
     checksum_calc := 23 |}.

(** An APW frame of declared length 6 (set_voltage with two payload bytes)
    at the position of its first checksum byte. *)
Definition apw_before_checksum (rd : bool) : Hla :=
  {| byte_pos := 6;
     start_of_transaction := Some 60;
     start_of_frame := Some 0;
     end_of_frame := Some 55;
     read := rd;
     last_read := rd;
     for_us := true;
     preamble_offset := 2;
     frame_len := 6;
     code := 131;
     type := "set_voltage";
     payload := [x0b; xb8];
     checksum_read := 0;
     checksum_calc := 320 |}.

(** A get_fw_version response of the dsPIC, one byte per read transaction:
    length 5, code 23, payload 7, checksum 0x0023. *)
Definition fw_version_frame : list I2cFrame :=
  txns "dsPIC" true (fun k => (10 * k, 10 * k + 5)) 0 (bytes_of [5; 23; 7; 0; 35]).

(** A read transaction carrying the single byte 1. *)
Definition one_byte_read : list I2cFrame := txn "dsPIC" 100 105 true [x01].

(** A dsPIC read frame in which the transaction of the length byte carries
    300 further data bytes 0xff before it, and the transaction of the second
    checksum byte 44 further bytes 0xff: declared length 4, code 7. *)
Definition long_transactions : list I2cFrame :=
  txn "dsPIC" 0 5 true (repeat xff 300 ++ [x04])
  ++ txn "dsPIC" 10 15 true [x07]
  ++ txn "dsPIC" 20 25 true [xff]
  ++ txn "dsPIC" 30 35 true (repeat xff 44 ++ [x0b]).

(** The frame of [long_transactions] up to the address event of its third
    transaction: 76511 accumulated, the checksum bytes still to come. *)
Definition oversized : Hla :=
  r_state (run "dsPIC" init
    (txn "dsPIC" 0 5 true (repeat xff 300 ++ [x04])
     ++ txn "dsPIC" 10 15 true [x07]
     ++ [ev_start 20; ev_address (addr_of "dsPIC") true])).

(** [Hla.result_types]: the frame types the analyzer declares, each with
    its display format. *)
Definition result_types : gmap string string :=
  list_to_map
    [ ("write_app", "Write App checksum={{data.checksum}}");
      ("jump_app", "Jump App checksum={{data.checksum}}");
      ("init", "Init checksum={{data.checksum}}");
      ("erase_app", "Erase App checksum={{data.checksum}}");
      ("set_something_3",
       "Set Something3 val={{data.payload}} checksum={{data.checksum}}");
      ("set_something_3_resp", "Set Something3 checksum={{data.checksum}}");
      ("power_switch", "Power Switch {{data.payload}} checksum={{data.checksum}}");
      ("power_switch_resp", "Power Switch checksum={{data.checksum}}");
      ("heart_beat", "HeartBeat checksum={{data.checksum}}");
      ("get_fw_version", "Get FW Version checksum={{data.checksum}}");
      ("get_fw_version_resp",
       "Get FW Version version={{data.payload}} checksum={{data.checksum}}");
      ("get_something_9", "Get Something9 checksum={{data.checksum}}");
      ("get_something_9_resp",
       "Get Something9 val={{data.payload}} checksum={{data.checksum}}");
      ("get_voltage", "Get Voltage checksum={{data.checksum}}");
      ("get_voltage_resp",
       "Get Voltage voltage={{data.payload}} checksum={{data.checksum}}");
      ("get_something_5", "Get Something5 checksum={{data.checksum}}");
      ("get_something_5_resp",
       "Get Something5 val={{data.payload}} checksum?={{data.checksum}}");
      ("set_something_1",
       "Set Something1 val={{data.payload}} checksum={{data.checksum}}");
      ("set_something_1_resp", "Set Something1 checksum={{data.checksum}}");
      ("set_voltage", "Set Voltage voltage={{data.payload}} checksum={{data.checksum}}");
      ("unknown", "Code: {{data.code}} checksum={{data.checksum}}") ].

(** The codes of [pic_types] and the names [get_type] can return. *)
Definition pic_codes : list Z := [2; 6; 7; 9; 16; 21; 22; 23; 40; 41; 43; 49].

Definition type_names : list string :=
  [ "set_voltage"; "write_app"; "jump_app"; "init"; "erase_app";
    "set_something_3"; "power_switch"; "heart_beat"; "get_fw_version";
    "get_something_9"; "get_voltage"; "get_something_5"; "set_something_1";
    "unknown" ].

(** The fields that decide whether, and how, a stop event closes the
    frame. *)
Definition same_frame (s s' : Hla) : Prop :=
  byte_pos s' = byte_pos s /\ frame_len s' = frame_len s /\
  preamble_offset s' = preamble_offset s /\ for_us s' = for_us s /\
  read s' = read s /\ type s' = type s /\ payload s' = payload s.

(** Reading back the payload field of a frame of a type without
    interpretation: ["None"] is the empty payload, anything else a string of
    lowercase hexadecimal digit pairs. *)
Definition hex_val (c : ascii) : option Z :=
  let n := Z.of_N (N_of_ascii c) in
  if (48 <=? n) && (n <=? 57) then Some (n - 48)
  else if (97 <=? n) && (n <=? 102) then Some (n - 87)
  else None.

Fixpoint unhex (s : string) : option (list byte) :=
  match s with
  | EmptyString => Some []
  | String c1 (String c2 rest) =>
    match hex_val c1, hex_val c2, unhex rest with
    | Some h, Some l, Some tl => Some (byte_of_Z (16 * h + l) :: tl)
    | _, _, _ => None
    end
  | String _ EmptyString => None
  end.

Definition unrender (r : string) : option (list byte) :=
  if String.eqb r "None" then Some [] else unhex r.

(** The fields of the frame being assembled. *)
Definition frame_fields (s : Hla) (k L c : Z) (ty : string) (pl : list byte)
    (cr cc : Z) (sof : option Z) : Prop :=
  byte_pos s = k /\ frame_len s = L /\ code s = c /\ type s = ty /\
  payload s = pl /\ checksum_read s = cr /\ checksum_calc s = cc /\
  start_of_frame s = sof.

(** The payload field of a frame of direction [rd], type [ty] and payload
    [pl], as the stop branch renders it. *)
Definition render_payload (rd : bool) (ty : string) (pl : list byte) : option Payload :=
  format_payload (set_payload pl (set_type ty (set_read rd init))).

(** An event with an ['error'] entry, or of a type other than the four bus
    events. *)
Definition unhandled (f : I2cFrame) : Prop :=
  is_Some (d_error (data f)) \/
  (ftype f <> "start" /\ ftype f <> "address" /\ ftype f <> "data" /\
   ftype f <> "stop").

(** The ranges every reachable state keeps. *)
Definition well_ranged (s : Hla) : Prop :=
  0 <= byte_pos s /\
  (preamble_offset s = 0 \/ preamble_offset s = 2) /\
  0 <= frame_len s <= 255 /\ 0 <= code s <= 255 /\
  0 <= checksum_read s /\ 0 <= checksum_calc s.

(** The type of a state is the initial one or a name of the tables. *)
Definition typed (s : Hla) : Prop := type s = "" \/ type s ∈ type_names.

(** The type of a frame is declared in [result_types], or empty. *)
Definition declared (fr : AnalyzerFrame) : Prop :=
  a_type fr = "" \/ is_Some (result_types !! a_type fr).

(** An APW frame of declared length 4 and code 7, one data byte per
    transaction except for the transaction of the length byte, which carries
    258 further data bytes before it; the first checksum byte is written, the
    second one read. *)
Definition mixed_direction : list I2cFrame :=
  txn "APW" 0 5 false [x55]
  ++ txn "APW" 10 15 false [xaa]
  ++ txn "APW" 20 25 false (repeat xff 257 ++ [xf6; x04])
  ++ txn "APW" 30 35 false [x07]
  ++ txn "APW" 40 45 false [xff]
  ++ txn "APW" 50 55 true [x02].

(** ** Two decoded frames *)

Example apw_short_frame :
  r_frames (run "APW" init (txns "APW" false (fun k => (10 * k, 10 * k + 5)) 0
                              (bytes_of [85; 170; 23; 1])))
  = [ mkFrame "unknown" (Some 0) (Some 35) "request" "2" "23" (PStr "None") "None" ].
Proof. vm_compute. reflexivity. Qed.

Example pic_fw_version :
  r_frames (run "dsPIC" init (txns "dsPIC" true (fun k => (10 * k, 10 * k + 5)) 0
                              (bytes_of [5; 23; 7; 0; 35])))
  = [ mkFrame "get_fw_version_resp" (Some 0) (Some 45) "response" "5" "23"
        (PStr "7") "OK" ].
Proof. vm_compute. reflexivity. Qed.

(** ** Basic facts about [decode] *)

Section Facts.

Variable dev : string.

Lemma decode_is_start self frame :
  d_error (data frame) = None -> ftype frame = "start" ->
  decode dev self frame = decode_start self frame.
Proof. intros He Ht. unfold decode. now rewrite He, Ht. Qed.

Lemma decode_is_address self frame :
  d_error (data frame) = None -> ftype frame = "address" ->
  decode dev self frame = decode_address dev self frame.
Proof. intros He Ht. unfold decode. now rewrite He, Ht. Qed.

Lemma decode_is_data self frame :
  d_error (data frame) = None -> ftype frame = "data" ->
  decode dev self frame = decode_data dev self frame.
Proof. intros He Ht. unfold decode. now rewrite He, Ht. Qed.

Lemma decode_is_stop self frame :
  d_error (data frame) = None -> ftype frame = "stop" ->
  decode dev self frame = decode_stop self frame.
Proof. intros He Ht. unfold decode. now rewrite He, Ht. Qed.

Lemma decode_error self frame e :
  d_error (data frame) = Some e ->
  decode dev self frame = mkOut self ["BM I2C:  " +:+ e] (Return None).
Proof. intros He. unfold decode. now rewrite He. Qed.

(** The parsing chain and the accumulation never move the byte position. *)
Lemma byte_pos_parse_data self b :
  byte_pos (parse_data dev self b) = byte_pos self.
Proof.
  unfold parse_data, checksum_le.
  repeat match goal with |- context [if ?c then _ else _] => destruct c end;
    reflexivity.
Qed.

Lemma byte_pos_accumulate self b :
  byte_pos (accumulate self b) = byte_pos self.
Proof. unfold accumulate. now destruct (_ && _). Qed.

Lemma byte_pos_decode_data self frame :
  byte_pos (st (decode_data dev self frame)) = byte_pos self.
Proof.
  unfold decode_data.
  destruct (negb (for_us self)); [reflexivity|].
  destruct (d_data (data frame)) as [bs|]; [|reflexivity].
  destruct (bs !! 0%nat) as [b|]; [|reflexivity].
  destruct (check_preamble self b); [reflexivity|].
  cbn. now rewrite byte_pos_parse_data, byte_pos_accumulate.
Qed.

Lemma decode_stop_advance self frame :
  for_us self = true ->
  byte_pos self <> frame_len self - 1 + preamble_offset self ->
  decode_stop self frame =
    mkOut (set_byte_pos (byte_pos self + 1)
             (set_last_read (read self)
                (set_end_of_frame (Some (end_time frame)) self)))
          [] (Return None).
Proof.
  intros Hf Hne. unfold decode_stop. rewrite Hf. cbn.
  destruct (Z.eqb_spec (byte_pos self) (frame_len self - 1 + preamble_offset self));
    [contradiction|reflexivity].
Qed.

End Facts.

(** ** C1: when the byte position advances *)

(** C1, as stated, fails: a data byte of a for-us transaction does not
    advance [byte_pos]; the state [listening] is at position 0 and is still
    at position 0 after a data byte. *)
Lemma data_byte_advance_counterexample :
  ~ (forall dev self b, for_us self = true ->
       byte_pos (st (decode dev self (ev_data b))) = byte_pos self + 1).
Proof.
  intros H. specialize (H "APW" listening x55 eq_refl).
  vm_compute in H. discriminate H.
Qed.

(** C1, amended: no data event changes [byte_pos], whatever the transaction
    and the byte; the position advances by one on each stop event of a for-us
    transaction that does not complete the frame, so the data bytes of one
    transaction are all dispatched at the same position and positions
    0, 1, 2, ... are those of successive transactions. *)
Theorem byte_pos_advances_on_stop dev self frame :
  d_error (data frame) = None ->
  (ftype frame = "data" ->
     byte_pos (st (decode dev self frame)) = byte_pos self) /\
  (ftype frame = "stop" -> for_us self = true ->
     byte_pos self <> frame_len self - 1 + preamble_offset self ->
     byte_pos (st (decode dev self frame)) = byte_pos self + 1).
Proof.
  intros He. split.
  - intros Ht. rewrite decode_is_data by assumption.
    apply byte_pos_decode_data.
  - intros Ht Hf Hne. rewrite decode_is_stop by assumption.
    now rewrite decode_stop_advance.
Qed.

Lemma byte_pos_advances_on_stop_witness :
  byte_pos (st (decode "APW" listening (ev_data x55))) = 0 /\
  byte_pos (st (decode "APW" listening (ev_stop 7))) = 1.
Proof.
  split.
  - apply (proj1 (byte_pos_advances_on_stop "APW" listening (ev_data x55) eq_refl)).
    reflexivity.
  - apply (proj2 (byte_pos_advances_on_stop "APW" listening (ev_stop 7) eq_refl)).
    + reflexivity.
    + reflexivity.
    + vm_compute. discriminate.
Defined.

(** ** C4: the checksum verdict *)

(** Only the stop branch returns a frame, and it does so from the completing
    position of a for-us transaction. *)
Lemma decode_returns_frame dev self frame f :
  ret (decode dev self frame) = Return (Some f) ->
  decode dev self frame = decode_stop self frame /\
  for_us self = true /\
  a_checksum f = checksum_verdict (checksum_read self) (checksum_calc self).
Proof.
  unfold decode.
  destruct (d_error (data frame)); [discriminate|].
  destruct (String.eqb (ftype frame) "start"); [discriminate|].
  destruct (String.eqb (ftype frame) "address").
  { unfold decode_address.
    destruct (d_address (data frame)) as [bs|]; [|discriminate].
    destruct (bs !! 0%nat); [|discriminate].
    destruct (_ =? _); [|discriminate].
    destruct (d_read (data frame)); discriminate. }
  destruct (String.eqb (ftype frame) "data").
  { unfold decode_data.
    destruct (negb (for_us self)); [discriminate|].
    destruct (d_data (data frame)) as [bs|]; [|discriminate].
    destruct (bs !! 0%nat) as [b|]; [|discriminate].
    destruct (check_preamble self b); discriminate. }
  destruct (String.eqb (ftype frame) "stop"); [|discriminate].
  unfold decode_stop.
  destruct (for_us self); [|discriminate]. cbn [negb].
  destruct (_ =? _); [|discriminate].
  destruct (format_payload _); [|discriminate].
  cbn. intros [= <-]. auto.
Qed.

(** C4: the checksum field of every emitted frame is determined by the
    declared and the computed checksum alone: ["None"] when the declared one
    is zero, whatever was computed; else ["OK"] when the two are equal; else
    ["KO"]. *)
Theorem checksum_verdict_of_emitted dev self frame f :
  ret (decode dev self frame) = Return (Some f) ->
  (checksum_read self = 0 -> a_checksum f = "None") /\
  (checksum_read self <> 0 -> checksum_read self = checksum_calc self ->
     a_checksum f = "OK") /\
  (checksum_read self <> 0 -> checksum_read self <> checksum_calc self ->
     a_checksum f = "KO").
Proof.
  intros H. apply decode_returns_frame in H as (_ & _ & ->).
  unfold checksum_verdict.
  destruct (Z.eqb_spec (checksum_read self) 0);
    destruct (Z.eqb_spec (checksum_read self) (checksum_calc self));
    repeat split; intros; congruence.
Qed.

Lemma checksum_verdict_of_emitted_witness :
  exists f,
    ret (decode "dsPIC" (closing true "heart_beat" [x01; x02] 30 30) (ev_stop 45))
      = Return (Some f) /\
    a_checksum f = "OK".
Proof.
  eexists. split; [reflexivity|].
  refine (proj1 (proj2 (checksum_verdict_of_emitted "dsPIC"
            (closing true "heart_beat" [x01; x02] 30 30) (ev_stop 45) _ eq_refl)) _ _).
  - cbn. discriminate.
  - reflexivity.
Defined.

(** ** C8: transactions addressed to another device *)

Section NotForUs.

Variable dev : string.

Lemma decode_not_for_us self frame :
  for_us self = false ->
  ftype frame = "data" \/ ftype frame = "stop" ->
  st (decode dev self frame) = self /\ ret (decode dev self frame) = Return None.
Proof.
  intros Hf Ht. unfold decode.
  destruct (d_error (data frame)); [now split|].
  destruct Ht as [-> | ->]; cbn.
  - unfold decode_data. rewrite Hf. now split.
  - unfold decode_stop. rewrite Hf. now split.
Qed.

Lemma run_not_for_us frames : forall self,
  for_us self = false ->
  Forall (fun f => ftype f = "data" \/ ftype f = "stop") frames ->
  run dev self frames = mkRun self [] None.
Proof.
  induction frames as [|f rest IH]; intros self Hf Hall; [reflexivity|].
  inversion Hall as [|? ? Hhd Htl]; subst.
  destruct (decode_not_for_us self f Hf Hhd) as [Hst Hret].
  cbn [run]. rewrite Hret, Hst, (IH self Hf Htl). reflexivity.
Qed.

End NotForUs.

(** C8: an address event whose address byte is not the profile's target
    address (0x10 for APW, 0x20 for dsPIC) clears [for_us] and changes nothing
    else, and the data and stop events that follow it leave the whole state
    as it is (so byte position, declared length, code, payload and both
    checksums are those from before the address event) and return no
    frame. *)
Theorem address_mismatch_ignored dev self fa a tl frames :
  d_error (data fa) = None -> ftype fa = "address" ->
  d_address (data fa) = Some (a :: tl) ->
  byte_to_Z a <> expected_addr dev ->
  Forall (fun f => ftype f = "data" \/ ftype f = "stop") frames ->
  expected_addr "APW" = 16 /\ expected_addr "dsPIC" = 32 /\
  run dev self (fa :: frames) = mkRun (set_for_us false self) [] None /\
  let s' := r_state (run dev self (fa :: frames)) in
  for_us s' = false /\
  byte_pos s' = byte_pos self /\ frame_len s' = frame_len self /\
  code s' = code self /\ type s' = type self /\ payload s' = payload self /\
  checksum_read s' = checksum_read self /\ checksum_calc s' = checksum_calc self /\
  start_of_frame s' = start_of_frame self /\ end_of_frame s' = end_of_frame self.
Proof.
  intros He Ht Ha Hne Hall.
  assert (Hd : decode dev self fa = mkOut (set_for_us false self) [] (Return None)).
  { rewrite decode_is_address by assumption.
    unfold decode_address. rewrite Ha. cbn.
    destruct (Z.eqb_spec (byte_to_Z a) (expected_addr dev)); [contradiction|reflexivity]. }
  assert (Hr : run dev self (fa :: frames) = mkRun (set_for_us false self) [] None).
  { cbn [run]. rewrite Hd. cbn [ret st].
    now rewrite run_not_for_us. }
  split; [reflexivity|]. split; [reflexivity|]. split; [exact Hr|].
  rewrite Hr. cbn. repeat split.
Qed.

Lemma address_mismatch_ignored_witness :
  run "dsPIC" (closing true "heart_beat" [x01] 30 30)
    [ev_address x10 true; ev_data x07; ev_data x08; ev_stop 50]
  = mkRun (set_for_us false (closing true "heart_beat" [x01] 30 30)) [] None.
Proof.
  refine (proj1 (proj2 (proj2 (address_mismatch_ignored "dsPIC"
     (closing true "heart_beat" [x01] 30 30) (ev_address x10 true) x10 []
     [ev_data x07; ev_data x08; ev_stop 50] eq_refl eq_refl eq_refl _ _)))).
  - vm_compute. discriminate.
  - repeat (apply Forall_cons_2; [(left; reflexivity) || (right; reflexivity)|]).
    apply Forall_nil_2.
Defined.

(** ** C9: the payload length the interpretation needs *)

Lemma format_payload_some self :
  (payload_needed self <= length (payload self))%nat ->
  exists p, format_payload self = Some p.
Proof.
  unfold payload_needed, format_payload, payload_at.
  repeat match goal with
         | |- context [if ?c && ?d then _ else _] => destruct (c && d)
         | |- context [if String.eqb ?a ?b then _ else _] => destruct (String.eqb a b)
         end;
    destruct (payload self) as [|b0 [|b1 [|b2 tl]]]; cbn; intros Hlen;
    solve [lia | eauto].
Qed.

Lemma format_payload_none self :
  (length (payload self) < payload_needed self)%nat ->
  format_payload self = None.
Proof.
  unfold payload_needed, format_payload, payload_at.
  repeat match goal with
         | |- context [if ?c && ?d then _ else _] => destruct (c && d)
         | |- context [if String.eqb ?a ?b then _ else _] => destruct (String.eqb a b)
         end;
    destruct (payload self) as [|b0 [|b1 [|b2 tl]]]; cbn; intros Hlen;
    solve [lia | reflexivity].
Qed.

(** The stop branch at the completing position. *)
Lemma decode_stop_complete self frame :
  for_us self = true ->
  byte_pos self = frame_len self - 1 + preamble_offset self ->
  let s1 := set_last_read (read self) (set_end_of_frame (Some (end_time frame)) self) in
  decode_stop self frame =
    match format_payload self with
    | None => mkOut s1 [] (Raise IndexError)
    | Some p =>
      mkOut (reset_frame s1) []
        (Return (Some
           {| a_type := if read self && is_resp_type (type self)
                        then type self +:+ "_resp" else type self;
              a_start_time := start_of_frame self;
              a_end_time := Some (end_time frame);
              a_direction := if read self then "response" else "request";
              a_len := str (frame_len self);
              a_code := str (code self);
              a_payload := p;
              a_checksum := checksum_verdict (checksum_read self) (checksum_calc self) |}))
    end.
Proof.
  intros Hf Hpos. unfold decode_stop. rewrite Hf. cbn.
  rewrite Hpos, Z.eqb_refl.
  change (format_payload (set_last_read _ _)) with (format_payload self).
  destruct (format_payload self); reflexivity.
Qed.

Lemma decode_stop_short_payload self frame :
  for_us self = true ->
  byte_pos self = frame_len self - 1 + preamble_offset self ->
  (length (payload self) < payload_needed self)%nat ->
  ret (decode_stop self frame) = Raise IndexError.
Proof.
  intros Hf Hpos Hlt. rewrite decode_stop_complete by assumption.
  now rewrite format_payload_none.
Qed.

(** C9: at the stop event that completes a frame, the payload interpretation
    subscripts the payload, and fails with [IndexError] (no frame is
    returned) when the payload is shorter than the type needs: one byte for a
    get_fw_version response and for a power_switch request, three bytes for a
    get_voltage response, two bytes for set_voltage; with a payload at least
    that long (and for every other type) the frame is returned. *)
Theorem payload_precondition dev self frame :
  d_error (data frame) = None -> ftype frame = "stop" ->
  for_us self = true ->
  byte_pos self = frame_len self - 1 + preamble_offset self ->
  let n := length (payload self) in
  let fails := ret (decode dev self frame) = Raise IndexError in
  (read self = true -> type self = "get_fw_version" -> (n < 1)%nat -> fails) /\
  (read self = false -> type self = "power_switch" -> (n < 1)%nat -> fails) /\
  (read self = true -> type self = "get_voltage" -> (n < 3)%nat -> fails) /\
  (type self = "set_voltage" -> (n < 2)%nat -> fails) /\
  ((n < payload_needed self)%nat -> fails) /\
  ((payload_needed self <= n)%nat ->
     exists f, ret (decode dev self frame) = Return (Some f)).
Proof.
  intros He Ht Hf Hpos n fails. subst n fails.
  rewrite decode_is_stop by assumption.
  pose proof (decode_stop_short_payload self frame Hf Hpos) as Hfail.
  repeat split.
  - intros Hr Hty Hn. apply Hfail. unfold payload_needed. now rewrite Hr, Hty.
  - intros Hr Hty Hn. apply Hfail. unfold payload_needed. now rewrite Hr, Hty.
  - intros Hr Hty Hn. apply Hfail. unfold payload_needed. now rewrite Hr, Hty.
  - intros Hty Hn. apply Hfail. unfold payload_needed. rewrite Hty.
    now destruct (read self).
  - exact Hfail.
  - intros Hle. rewrite decode_stop_complete by assumption.
    destruct (format_payload_some self Hle) as [p ->]. eauto.
Qed.

Lemma payload_precondition_witness :
  ret (decode "dsPIC" (closing true "get_voltage" [x01; x02] 30 30) (ev_stop 45))
    = Raise IndexError /\
  exists f,
    ret (decode "dsPIC" (closing true "get_voltage" [x01; x02; x03] 30 30) (ev_stop 45))
      = Return (Some f).
Proof.
  split.
  - refine (proj1 (proj2 (proj2 (payload_precondition "dsPIC"
       (closing true "get_voltage" [x01; x02] 30 30) (ev_stop 45)
       eq_refl eq_refl eq_refl eq_refl))) eq_refl eq_refl _).
    cbn. lia.
  - refine (proj2 (proj2 (proj2 (proj2 (proj2 (payload_precondition "dsPIC"
       (closing true "get_voltage" [x01; x02; x03] 30 30) (ev_stop 45)
       eq_refl eq_refl eq_refl eq_refl))))) _).
    cbn. lia.
Defined.

(** ** C6: what the reset after an emitted frame covers *)

(** C6, on the code: after the get_fw_version response is emitted, byte
    position, declared length, payload and both checksums are back at their
    initial values, but [code] and [type] still hold 23 and
    ["get_fw_version"] instead of the initial 99 and [""]; the stale type
    then decides how the next frame is decoded: the one-byte read that a
    fresh analyzer returns as an untyped frame with code 99 raises
    [IndexError] here. *)
Theorem reset_keeps_code_and_type :
  let s := r_state (run "dsPIC" init fw_version_frame) in
  length (r_frames (run "dsPIC" init fw_version_frame)) = 1%nat /\
  byte_pos s = byte_pos init /\ frame_len s = frame_len init /\
  payload s = payload init /\
  checksum_read s = checksum_read init /\ checksum_calc s = checksum_calc init /\
  code s = 23 /\ code init = 99 /\
  type s = "get_fw_version" /\ type init = "" /\
  r_exn (run "dsPIC" s one_byte_read) = Some IndexError /\
  r_frames (run "dsPIC" init one_byte_read)
    = [ mkFrame "" (Some 100) (Some 105) "response" "1" "99" (PStr "None") "None" ].
Proof. vm_compute. repeat split. Qed.

(** ** C3: the short-frame encoding *)

Section ShortFrame.

Variable dev : string.

Lemma accumulate_eq self b :
  accumulate self b =
    set_checksum_calc
      (checksum_calc self +
       (if (byte_pos self >=? 0 + preamble_offset self)
           && (byte_pos self <? frame_len self - 2 + preamble_offset self)
        then byte_to_Z b else 0)) self.
Proof.
  unfold accumulate. destruct (_ && _); [reflexivity|].
  rewrite Z.add_0_r. now destruct self.
Qed.

Lemma check_preamble_none self b :
  (byte_pos self = 0 \/ byte_pos self = 1 -> preamble_offset self <> 2) ->
  check_preamble self b = None.
Proof.
  intros H. unfold check_preamble.
  destruct (Z.eqb_spec (byte_pos self) 0) as [H0|H0].
  - destruct (Z.eqb_spec (preamble_offset self) 2); [|reflexivity].
    exfalso. now apply H; [left|].
  - destruct (Z.eqb_spec (byte_pos self) 1) as [H1|H1]; [|reflexivity].
    destruct (Z.eqb_spec (preamble_offset self) 2); [|reflexivity].
    exfalso. now apply H; [right|].
Qed.

(** A data byte that gets past the preamble check. *)
Lemma decode_data_parsed self b :
  for_us self = true ->
  (byte_pos self = 0 \/ byte_pos self = 1 -> preamble_offset self <> 2) ->
  decode dev self (ev_data b) =
    mkOut (parse_data dev (accumulate self b) b) [] (Return None).
Proof.
  intros Hf Hp. rewrite decode_is_data by reflexivity.
  unfold decode_data. rewrite Hf. cbn.
  now rewrite check_preamble_none.
Qed.

Lemma parse_data_code self b :
  byte_pos self = 1 + preamble_offset self ->
  parse_data dev self b =
    let self1 :=
      if byte_to_Z b =? 1
      then set_frame_len 2 (set_code (frame_len self) self)
      else set_code (byte_to_Z b) self in
    set_type (get_type dev (code self1)) self1.
Proof.
  intros Hpos. unfold parse_data.
  destruct (Z.eqb_spec (byte_pos self) (0 + preamble_offset self)); [lia|].
  destruct (Z.eqb_spec (byte_pos self) (1 + preamble_offset self)); [|lia].
  reflexivity.
Qed.

End ShortFrame.

(** C3: a data byte at position [preamble_offset + 1] that equals 1 makes
    the frame a short frame: the code becomes the declared length parsed from
    the previous byte and the declared length becomes 2, nothing being added
    to the payload; any other byte is the code itself and the declared length
    stays.  The type is resolved from the code in both cases.  On the APW
    profile the bytes 23, 1 (after the preamble, one byte per transaction, and
    whatever two bytes follow) are returned as one frame with code 23, length
    2 and an empty payload. *)
Theorem short_frame_encoding dev self b :
  (for_us self = true -> byte_pos self = preamble_offset self + 1 ->
   let s' := st (decode dev self (ev_data b)) in
   (byte_to_Z b = 1 ->
      code s' = frame_len self /\ frame_len s' = 2 /\
      type s' = get_type dev (frame_len self) /\ payload s' = payload self) /\
   (byte_to_Z b <> 1 ->
      code s' = byte_to_Z b /\ frame_len s' = frame_len self /\
      type s' = get_type dev (byte_to_Z b) /\ payload s' = payload self)) /\
  (forall rd ts hi lo,
     r_frames (run "APW" init
                 (txns "APW" rd ts 0 [x55; xaa; byte_of_Z 23; x01; hi; lo]))
     = [ mkFrame "unknown" (Some (ts 0).1) (Some (ts 3).2)
           (if rd then "response" else "request") "2" "23" (PStr "None") "None" ]).
Proof.
  split.
  - intros Hf Hpos s'. subst s'.
    rewrite decode_data_parsed by (assumption || lia).
    cbn [st]. rewrite parse_data_code
      by (rewrite accumulate_eq; cbn; lia).
    rewrite accumulate_eq. split; intros Hb.
    + rewrite Hb. cbn. auto.
    + destruct (Z.eqb_spec (byte_to_Z b) 1); [contradiction|]. cbn. auto.
  - intros [] ts hi lo; vm_compute; reflexivity.
Qed.

Lemma short_frame_encoding_witness :
  let s' := st (decode "dsPIC" at_code_position (ev_data x01)) in
  code s' = 23 /\ frame_len s' = 2 /\ type s' = "get_fw_version" /\ payload s' = [].
Proof.
  refine (proj1 (proj1 (short_frame_encoding "dsPIC" at_code_position x01)
                   eq_refl eq_refl) eq_refl).
Defined.

(** ** C5: the byte order of the declared checksum *)

Section Transactions.

Variable dev : string.

Lemma addr_of_expected : byte_to_Z (addr_of dev) = expected_addr dev.
Proof.
  unfold addr_of, expected_addr.
  destruct (String.eqb dev "APW"); [reflexivity|].
  destruct (String.eqb dev "dsPIC"); reflexivity.
Qed.

Lemma preamble_of_range rd : preamble_of dev rd = 0 \/ preamble_of dev rd = 2.
Proof. unfold preamble_of. destruct (_ && _); auto. Qed.

Lemma decode_ev_start self t :
  decode dev self (ev_start t) =
    mkOut (if byte_pos self =? 0
           then set_start_of_frame (Some t) (set_start_of_transaction (Some t) self)
           else set_start_of_transaction (Some t) self) [] (Return None).
Proof. reflexivity. Qed.

Lemma decode_ev_address self rd :
  decode dev self (ev_address (addr_of dev) rd) =
    mkOut (set_preamble_offset (preamble_of dev rd) (set_read rd (set_for_us true self)))
          [] (Return None).
Proof.
  rewrite decode_is_address by reflexivity.
  unfold decode_address. cbn.
  rewrite addr_of_expected, Z.eqb_refl. cbn.
  unfold preamble_of. now destruct (rd && _).
Qed.

Lemma decode_ev_stop self e :
  decode dev self (ev_stop e) = decode_stop self (ev_stop e).
Proof. reflexivity. Qed.

Lemma parse_data_checksum1 self b :
  byte_pos self = frame_len self - 2 + preamble_offset self ->
  4 <= frame_len self ->
  parse_data dev self b =
    set_checksum_read
      (if checksum_le dev self then byte_to_Z b else Z.shiftl (byte_to_Z b) 8) self.
Proof.
  intros Hpos HL. unfold parse_data.
  destruct (Z.eqb_spec (byte_pos self) (0 + preamble_offset self)); [lia|].
  destruct (Z.eqb_spec (byte_pos self) (1 + preamble_offset self)); [lia|].
  destruct (Z.eqb_spec (byte_pos self) (frame_len self - 2 + preamble_offset self)); [|lia].
  now destruct (checksum_le dev self).
Qed.

Lemma parse_data_checksum2 self b :
  byte_pos self = frame_len self - 1 + preamble_offset self ->
  3 <= frame_len self ->
  parse_data dev self b =
    set_checksum_read
      (checksum_read self +
       (if checksum_le dev self then Z.shiftl (byte_to_Z b) 8 else byte_to_Z b)) self.
Proof.
  intros Hpos HL. unfold parse_data.
  destruct (Z.eqb_spec (byte_pos self) (0 + preamble_offset self)); [lia|].
  destruct (Z.eqb_spec (byte_pos self) (1 + preamble_offset self)); [lia|].
  destruct (Z.eqb_spec (byte_pos self) (frame_len self - 2 + preamble_offset self)); [lia|].
  destruct (Z.eqb_spec (byte_pos self) (frame_len self - 1 + preamble_offset self)); [|lia].
  now destruct (checksum_le dev self).
Qed.

(** The accumulation skips the positions of the two checksum bytes. *)
Lemma accumulate_checksum_pos self b :
  frame_len self - 2 + preamble_offset self <= byte_pos self ->
  accumulate self b = self.
Proof.
  intros Hpos. unfold accumulate.
  destruct (Z.ltb_spec (byte_pos self) (frame_len self - 2 + preamble_offset self));
    [lia|]. now rewrite andb_false_r.
Qed.

Lemma run_checksum_events self b1 b2 e t :
  for_us self = true ->
  preamble_offset self = preamble_of dev (read self) ->
  byte_pos self = frame_len self - 2 + preamble_offset self ->
  4 <= frame_len self ->
  let r := run dev self (checksum_events dev self b1 b2 e t) in
  r_exn r = None /\ r_frames r = [] /\
  checksum_read (r_state r) = assembled dev self b1 b2 /\
  checksum_calc (r_state r) = checksum_calc self /\
  byte_pos (r_state r) = frame_len self - 1 + preamble_offset self /\
  frame_len (r_state r) = frame_len self /\
  preamble_offset (r_state r) = preamble_offset self /\
  for_us (r_state r) = true /\ read (r_state r) = read self /\
  type (r_state r) = type self /\ payload (r_state r) = payload self /\
  code (r_state r) = code self /\ start_of_frame (r_state r) = start_of_frame self.
Proof.
  intros Hf Hp Hpos HL.
  pose proof (preamble_of_range (read self)) as Hrange. rewrite <- Hp in Hrange.
  unfold checksum_events. cbn [run].
  (* first checksum byte *)
  rewrite decode_data_parsed by (assumption || lia).
  rewrite accumulate_checksum_pos by lia.
  rewrite parse_data_checksum1 by assumption. cbn [ret st].
  (* stop of its transaction *)
  set (v1 := if checksum_le dev self then _ else _).
  rewrite decode_ev_stop, decode_stop_advance by (hla_simpl; assumption || lia).
  cbn [ret st].
  (* next transaction *)
  rewrite decode_ev_start. cbn [ret st]. hla_simpl.
  destruct (Z.eqb_spec (byte_pos self + 1) 0); [lia|].
  rewrite decode_ev_address. cbn [ret st]. hla_simpl. rewrite <- Hp.
  (* second checksum byte *)
  rewrite decode_data_parsed by (hla_simpl; (reflexivity || lia)).
  rewrite accumulate_checksum_pos by (hla_simpl; lia).
  rewrite parse_data_checksum2 by (hla_simpl; lia).
  cbn [ret st r_exn r_frames r_state option_list app]. hla_simpl.
  unfold assembled, checksum_le in *. hla_simpl. subst v1.
  repeat split; try lia.
  now destruct (_ && _).
Qed.

End Transactions.

(** C5: the two checksum bytes of a frame, each the data byte of its
    position, assemble the declared checksum little-endian for the APW
    profile on a read transaction (first byte low, second byte shifted left by
    8) and big-endian in every other case (first byte shifted left by 8,
    second byte low). *)
Theorem checksum_byte_order dev self b1 b2 e t :
  for_us self = true ->
  preamble_offset self = preamble_of dev (read self) ->
  byte_pos self = frame_len self - 2 + preamble_offset self ->
  4 <= frame_len self ->
  let s' := r_state (run dev self (checksum_events dev self b1 b2 e t)) in
  (dev = "APW" -> read self = true ->
     checksum_read s' = byte_to_Z b1 + Z.shiftl (byte_to_Z b2) 8) /\
  (dev <> "APW" \/ read self = false ->
     checksum_read s' = Z.shiftl (byte_to_Z b1) 8 + byte_to_Z b2).
Proof.
  intros Hf Hp Hpos HL s'. subst s'.
  destruct (run_checksum_events dev self b1 b2 e t Hf Hp Hpos HL)
    as (_ & _ & -> & _).
  unfold assembled, checksum_le. split.
  - intros -> ->. reflexivity.
  - intros [Hd | ->].
    + apply String.eqb_neq in Hd. now rewrite Hd.
    + now rewrite andb_false_r.
Qed.

Lemma checksum_byte_order_witness :
  checksum_read (r_state (run "APW" (apw_before_checksum true)
     (checksum_events "APW" (apw_before_checksum true) x40 x01 65 70))) = 320 /\
  checksum_read (r_state (run "APW" (apw_before_checksum false)
     (checksum_events "APW" (apw_before_checksum false) x01 x40 65 70))) = 320.
Proof.
  split.
  - refine (proj1 (checksum_byte_order "APW" (apw_before_checksum true) x40 x01 65 70
                     eq_refl eq_refl eq_refl _) eq_refl eq_refl).
    cbn. lia.
  - refine (proj2 (checksum_byte_order "APW" (apw_before_checksum false) x01 x40 65 70
                     eq_refl eq_refl eq_refl _) _).
    + cbn. lia.
    + right. reflexivity.
Defined.

(** ** C10: sums beyond sixteen bits *)

Lemma byte_to_Z_range b : 0 <= byte_to_Z b <= 255.
Proof.
  unfold byte_to_Z. pose proof (Byte.to_N_bounded b). lia.
Qed.

Section Overflow.

Variable dev : string.

Lemma run_app l1 : forall self l2,
  r_exn (run dev self l1) = None ->
  run dev self (l1 ++ l2) =
    mkRun (r_state (run dev (r_state (run dev self l1)) l2))
          (r_frames (run dev self l1) ++ r_frames (run dev (r_state (run dev self l1)) l2))
          (r_exn (run dev (r_state (run dev self l1)) l2)).
Proof.
  induction l1 as [|f rest IH]; intros self l2 Hex.
  - cbn. now destruct (run dev self l2).
  - cbn [run app] in *. destruct (ret (decode dev self f)) as [r|ex].
    + cbn [r_exn r_state r_frames] in *. rewrite (IH _ _ Hex).
      cbn [r_exn r_state r_frames]. now rewrite app_assoc.
    + discriminate Hex.
Qed.

Lemma run_step_none self f rest :
  ret (decode dev self f) = Return None ->
  run dev self (f :: rest) = run dev (st (decode dev self f)) rest.
Proof.
  intros H. cbn [run]. rewrite H. cbn.
  now destruct (run dev (st (decode dev self f)) rest).
Qed.

(** Two checksum bytes assemble a sixteen bit value. *)
Lemma assembled_range self b1 b2 : 0 <= assembled dev self b1 b2 <= 65535.
Proof.
  unfold assembled. rewrite !Z.shiftl_mul_pow2 by lia.
  pose proof (byte_to_Z_range b1). pose proof (byte_to_Z_range b2).
  destruct (checksum_le dev self); lia.
Qed.

End Overflow.

(** C10, as stated, fails: when a transaction carries several data bytes,
    every one of them at a checksum position is added into the declared
    checksum, which then exceeds 0xFFFF; the frame below completes with an
    accumulated sum of 76511 and is reported ["OK"]. *)
Lemma oversized_sum_counterexample :
  let before_stop := removelast long_transactions in
  let s := r_state (run "dsPIC" init before_stop) in
  byte_pos s = frame_len s - 1 + preamble_offset s /\
  checksum_calc s = 76511 /\ 65535 < checksum_calc s /\
  checksum_read s = 76511 /\
  r_frames (run "dsPIC" init long_transactions)
    = [ mkFrame "init" (Some 0) (Some 35) "response" "4" "7" (PStr "None") "OK" ].
Proof. vm_compute. repeat split. Qed.

(** With the two checksum bytes in transactions of different direction the
    declared checksum is not a sixteen bit value either: on the APW profile a
    write puts the first byte in the high byte and a read puts the second
    byte in the high byte too, and the frame below is reported ["OK"] with
    65792 on both sides. *)
Lemma mixed_direction_checksum_example :
  let s := r_state (run "APW" init (removelast mixed_direction)) in
  checksum_read s = 65792 /\ checksum_calc s = 65792 /\
  r_frames (run "APW" init mixed_direction)
    = [ mkFrame "unknown" (Some 0) (Some 55) "response" "4" "7" (PStr "None") "OK" ].
Proof. vm_compute. repeat split. Qed.

(** C10, amended: the computed checksum is an exact integer sum.  For a
    frame of declared length at least 4 whose two checksum bytes arrive as the
    single data bytes of two successive transactions of the same direction,
    the declared checksum lies in 0..0xFFFF; when such a frame is returned
    (its payload being long enough for its type) and its accumulated sum
    exceeds 0xFFFF, it is never reported valid: its verdict is ["None"] when
    the declared checksum is zero and ["KO"] otherwise. *)
Theorem oversized_sum_never_valid dev self b1 b2 e t e' :
  for_us self = true ->
  preamble_offset self = preamble_of dev (read self) ->
  byte_pos self = frame_len self - 2 + preamble_offset self ->
  4 <= frame_len self ->
  (payload_needed self <= length (payload self))%nat ->
  65535 < checksum_calc self ->
  let r := run dev self (checksum_events dev self b1 b2 e t ++ [ev_stop e']) in
  0 <= assembled dev self b1 b2 <= 65535 /\
  exists f,
    r_frames r = [f] /\ r_exn r = None /\
    a_checksum f <> "OK" /\
    a_checksum f = if assembled dev self b1 b2 =? 0 then "None" else "KO".
Proof.
  intros Hf Hp Hpos HL Hpl Hbig r. subst r.
  pose proof (assembled_range dev self b1 b2) as Hrange.
  split; [exact Hrange|].
  destruct (run_checksum_events dev self b1 b2 e t Hf Hp Hpos HL)
    as (Hex & Hfr & Hcr & Hcc & Hbp & Hfl & Hpo & Hfu & Hrd & Hty & Hpay & _).
  rewrite run_app by exact Hex. rewrite Hfr.
  set (s := r_state (run dev self (checksum_events dev self b1 b2 e t))) in *.
  cbn [run app]. rewrite decode_ev_stop.
  rewrite decode_stop_complete by (assumption || lia).
  destruct (format_payload_some s) as [p ->].
  { unfold payload_needed. now rewrite Hrd, Hty, Hpay. }
  cbn [ret st r_frames r_exn r_state option_list app].
  eexists. split; [reflexivity|]. split; [reflexivity|].
  cbn [a_checksum]. rewrite Hcr, Hcc. unfold checksum_verdict.
  destruct (Z.eqb_spec (assembled dev self b1 b2) 0); [split; [discriminate|reflexivity]|].
  destruct (Z.eqb_spec (assembled dev self b1 b2) (checksum_calc self)); [lia|].
  split; [discriminate|reflexivity].
Qed.

Lemma oversized_sum_never_valid_witness :
  exists f,
    r_frames (run "dsPIC" oversized
                (checksum_events "dsPIC" oversized xff xff 25 30 ++ [ev_stop 35])) = [f] /\
    a_checksum f = "KO".
Proof.
  destruct (oversized_sum_never_valid "dsPIC" oversized xff xff 25 30 35)
    as (_ & f & Hfr & _ & _ & Hv).
  - vm_compute. reflexivity.
  - vm_compute. reflexivity.
  - vm_compute. reflexivity.
  - vm_compute. discriminate.
  - vm_compute. lia.
  - vm_compute. reflexivity.
  - exists f. split; [exact Hfr|exact Hv].
Defined.

(** ** C7: a frame spread over two transactions *)

Section RepeatedStart.

Variable dev : string.

Lemma same_context_refl s : same_context s s.
Proof. repeat split. Qed.

Lemma same_context_trans s1 s2 s3 :
  same_context s1 s2 -> same_context s2 s3 -> same_context s1 s3.
Proof. unfold same_context. intuition congruence. Qed.

Lemma parse_data_context self b : same_context self (parse_data dev self b).
Proof.
  unfold parse_data.
  repeat match goal with |- context [if ?c then _ else _] => destruct c end;
    repeat split.
Qed.

Lemma accumulate_context self b : same_context self (accumulate self b).
Proof. unfold accumulate. destruct (_ && _); repeat split. Qed.

Lemma decode_ev_data_context self b :
  ret (decode dev self (ev_data b)) = Return None /\
  same_context self (st (decode dev self (ev_data b))).
Proof.
  rewrite decode_is_data by reflexivity. unfold decode_data.
  destruct (negb (for_us self)); [split; [reflexivity|apply same_context_refl]|].
  cbn. destruct (check_preamble self b);
    [split; [reflexivity|apply same_context_refl]|].
  split; [reflexivity|]. cbn [st].
  eapply same_context_trans; [apply accumulate_context|apply parse_data_context].
Qed.

Lemma run_data_context ds : forall self,
  r_exn (run dev self (map ev_data ds)) = None /\
  r_frames (run dev self (map ev_data ds)) = [] /\
  same_context self (r_state (run dev self (map ev_data ds))).
Proof.
  induction ds as [|b ds IH]; intros self.
  - cbn. repeat split.
  - cbn [map run].
    destruct (decode_ev_data_context self b) as [-> Hctx].
    destruct (IH (st (decode dev self (ev_data b)))) as (Hex & Hfr & Hctx').
    cbn [r_exn r_frames r_state option_list]. rewrite Hfr.
    repeat split; try assumption.
    all: destruct Hctx as (? & ? & ? & ? & ?), Hctx' as (? & ? & ? & ? & ?);
      congruence.
Qed.

(** A for-us transaction up to its stop event: nothing is returned, the byte
    position stays, and the frame start is taken from the start event only at
    position 0. *)
Lemma run_txn_open self t rd ds :
  let r := run dev self (txn_open dev t rd ds) in
  r_exn r = None /\ r_frames r = [] /\
  byte_pos (r_state r) = byte_pos self /\
  for_us (r_state r) = true /\
  start_of_frame (r_state r)
    = (if byte_pos self =? 0 then Some t else start_of_frame self).
Proof.
  unfold txn_open. cbn [run].
  rewrite decode_ev_start. cbn [ret st].
  rewrite decode_ev_address. cbn [ret st].
  match goal with |- context [run dev ?s (map ev_data ds)] =>
    destruct (run_data_context ds s) as (Hex & Hfr & Hbp & Hsf & Hfu & _)
  end.
  cbn [r_exn r_frames r_state option_list app].
  rewrite Hex, Hfr, Hbp, Hsf, Hfu. hla_simpl.
  destruct (byte_pos self =? 0); repeat split.
Qed.

End RepeatedStart.

(** C7, as stated, fails: on the dsPIC profile a read transaction carrying
    the byte 2 (declared length 2) stops before the last position, and a
    second read transaction carrying the code byte 23 brings the frame to its
    last position; the frame is then a get_fw_version response with an empty
    payload, and the completing stop raises [IndexError] instead of returning
    a frame. *)
Lemma repeated_start_counterexample :
  let s1 := r_state (run "dsPIC" init (txn_open "dsPIC" 100 true [x02])) in
  let s1' := st (decode "dsPIC" s1 (ev_stop 105)) in
  let s2 := r_state (run "dsPIC" s1' (txn_open "dsPIC" 110 true [x17])) in
  let r := run "dsPIC" init
             (txn "dsPIC" 100 105 true [x02] ++ txn "dsPIC" 110 115 true [x17]) in
  byte_pos s1 < frame_len s1 - 1 + preamble_offset s1 /\
  byte_pos s2 = frame_len s2 - 1 + preamble_offset s2 /\
  r_frames r = [] /\ r_exn r = Some IndexError.
Proof. vm_compute. repeat split. Qed.

(** C7, amended: when the stop event of a for-us transaction arrives before
    the last position of the frame and the next for-us transaction brings the
    frame to its last position (the byte position being non-negative, as in
    every reachable state), the first stop advances the byte position by one
    (it is not reset, and the data bytes do not move it).  If the payload is
    long enough for the interpretation of the frame's type, the two
    transactions return exactly one frame, and its start time is that of the
    first transaction's start event when that transaction began the frame
    ([byte_pos = 0]), the recorded frame start otherwise; the start event of
    the second transaction does not replace it.  If the payload is shorter,
    the completing stop raises [IndexError] and no frame is returned. *)
Theorem repeated_start_one_frame dev self t0 e0 t1 e1 rd1 rd2 ds1 ds2 :
  0 <= byte_pos self ->
  let s1 := r_state (run dev self (txn_open dev t0 rd1 ds1)) in
  byte_pos s1 < frame_len s1 - 1 + preamble_offset s1 ->
  let s1' := st (decode dev s1 (ev_stop e0)) in
  let s2 := r_state (run dev s1' (txn_open dev t1 rd2 ds2)) in
  byte_pos s2 = frame_len s2 - 1 + preamble_offset s2 ->
  let r := run dev self (txn dev t0 e0 rd1 ds1 ++ txn dev t1 e1 rd2 ds2) in
  byte_pos s1' = byte_pos self + 1 /\ byte_pos s2 = byte_pos self + 1 /\
  ((payload_needed s2 <= length (payload s2))%nat ->
   r_exn r = None /\
   exists f,
     r_frames r = [f] /\
     a_start_time f = (if byte_pos self =? 0 then Some t0 else start_of_frame self) /\
     (byte_pos self = 0 -> a_start_time f = Some t0) /\
     a_end_time f = Some e1) /\
  ((length (payload s2) < payload_needed s2)%nat ->
   r_frames r = [] /\ r_exn r = Some IndexError).
Proof.
  intros Hnn s1 Hbefore s1' s2 Hlast r.
  destruct (run_txn_open dev self t0 rd1 ds1) as (Hex1 & Hfr1 & Hbp1 & Hfu1 & Hsf1).
  fold s1 in Hbp1, Hfu1, Hsf1.
  assert (Hstop : decode dev s1 (ev_stop e0) =
            mkOut (set_byte_pos (byte_pos s1 + 1)
                     (set_last_read (read s1) (set_end_of_frame (Some e0) s1)))
                  [] (Return None)).
  { rewrite decode_ev_stop. apply decode_stop_advance; [assumption|lia]. }
  assert (Hbp1' : byte_pos s1' = byte_pos self + 1).
  { subst s1'. rewrite Hstop. cbn [st]. hla_simpl. lia. }
  assert (Hsf1' : start_of_frame s1' = start_of_frame s1).
  { subst s1'. now rewrite Hstop. }
  destruct (run_txn_open dev s1' t1 rd2 ds2) as (Hex2 & Hfr2 & Hbp2 & Hfu2 & Hsf2).
  fold s2 in Hbp2, Hfu2, Hsf2.
  destruct (Z.eqb_spec (byte_pos s1') 0) as [H0|_]; [lia|].
  assert (Hr : r = run dev s2 [ev_stop e1] /\ True).
  { split; [|exact I]. subst r. unfold txn.
    rewrite <- app_assoc. rewrite run_app by exact Hex1. rewrite Hfr1.
    fold s1. cbn [app]. rewrite (run_step_none dev s1 (ev_stop e0))
      by now rewrite Hstop.
    fold s1'. rewrite run_app by exact Hex2. rewrite Hfr2. fold s2.
    now destruct (run dev s2 [ev_stop e1]). }
  destruct Hr as [Hr _].
  split; [exact Hbp1'|]. split; [congruence|].
  rewrite Hr. cbn [run]. rewrite decode_ev_stop.
  rewrite decode_stop_complete by assumption.
  split.
  - intros Hpl. destruct (format_payload_some s2 Hpl) as [p ->].
    cbn [ret st r_exn r_frames r_state option_list app].
    split; [reflexivity|].
    eexists. split; [reflexivity|]. cbn [a_start_time a_end_time].
    rewrite Hsf2, Hsf1', Hsf1.
    split; [reflexivity|]. split; [|reflexivity].
    intros ->. reflexivity.
  - intros Hshort. rewrite format_payload_none by exact Hshort.
    cbn [ret st r_exn r_frames r_state]. split; reflexivity.
Qed.

Lemma repeated_start_one_frame_witness :
  exists f,
    r_frames (run "dsPIC" init
                (txn "dsPIC" 100 105 true [x02] ++ txn "dsPIC" 110 115 true [x07])) = [f] /\
    a_start_time f = Some 100.
Proof.
  destruct (repeated_start_one_frame "dsPIC" init 100 105 110 115 true true [x02] [x07])
    as (_ & _ & Hok & _).
  - vm_compute. discriminate.
  - vm_compute. reflexivity.
  - vm_compute. reflexivity.
  - destruct Hok as (_ & f & Hfr & _ & Hst & _).
    + vm_compute. lia.
    + exists f. split; [exact Hfr|]. apply Hst. reflexivity.
Defined.

(** ** C2: what the computed checksum sums *)

Section ChecksumRegion.

Variable dev : string.

Lemma data_step_fields s b :
  for_us s = true -> 0 <= byte_pos s ->
  preamble_offset s = 0 \/ preamble_offset s = 2 ->
  let s1 := st (decode dev s (ev_data b)) in
  frame_len s1 = next_len (preamble_offset s) (byte_pos s) (frame_len s) (byte_to_Z b) /\
  checksum_calc s1 = checksum_calc s
                     + added (preamble_offset s) (byte_pos s) (frame_len s) (byte_to_Z b).
Proof.
  intros Hf Hnn Hp s1. subst s1.
  rewrite decode_is_data by reflexivity.
  unfold decode_data. rewrite Hf. cbn [negb data d_data ev_data].
  change ([b] !! 0%nat) with (Some b).
  unfold check_preamble, next_len, added.
  destruct (Z.eqb_spec (byte_pos s) 0) as [H0|H0];
    [|destruct (Z.eqb_spec (byte_pos s) 1) as [H1|H1]];
    destruct (Z.eqb_spec (preamble_offset s) 2) as [H2|H2]; cbn [st].
  1, 3:
    (destruct (Z.ltb_spec (byte_pos s) (preamble_offset s)); [|lia];
     destruct (Z.leb_spec (preamble_offset s) (byte_pos s)); [lia|];
     cbn; split; lia).
  all: unfold parse_data, accumulate;
    destruct (Z.ltb_spec (byte_pos s) (preamble_offset s)); [lia|];
    replace (byte_pos s >=? 0 + preamble_offset s)
      with (preamble_offset s <=? byte_pos s)
      by (rewrite Z.geb_leb; f_equal; lia);
    destruct ((preamble_offset s <=? byte_pos s)
              && (byte_pos s <? frame_len s - 2 + preamble_offset s));
    hla_simpl;
    replace (0 + preamble_offset s) with (preamble_offset s) by lia;
    replace (1 + preamble_offset s) with (preamble_offset s + 1) by lia;
    destruct (byte_pos s =? preamble_offset s); hla_simpl; try (split; lia);
    destruct (byte_pos s =? preamble_offset s + 1); cbn [andb];
    try (destruct (byte_to_Z b =? 1); hla_simpl; split; lia);
    repeat match goal with
           | |- context [if ?c then _ else _] => destruct c; hla_simpl
           end; split; lia.
Qed.

Lemma addressed_fields self t rd :
  byte_pos (addressed dev self t rd) = byte_pos self /\
  frame_len (addressed dev self t rd) = frame_len self /\
  checksum_calc (addressed dev self t rd) = checksum_calc self /\
  preamble_offset (addressed dev self t rd) = preamble_of dev rd /\
  for_us (addressed dev self t rd) = true.
Proof. unfold addressed. destruct (byte_pos self =? 0); repeat split. Qed.

Lemma run_txn_open_single self t rd b :
  run dev self (txn_open dev t rd [b]) =
    mkRun (st (decode dev (addressed dev self t rd) (ev_data b))) [] None.
Proof.
  unfold txn_open. cbn [map run].
  rewrite decode_ev_start. cbn [ret st].
  rewrite decode_ev_address. cbn [ret st]. fold (addressed dev self t rd).
  destruct (decode_ev_data_context dev (addressed dev self t rd) b) as [-> _].
  reflexivity.
Qed.

(** One byte in a transaction of its own, the frame not being complete at
    its stop event. *)
Lemma run_txn_single self t e rd b :
  0 <= byte_pos self ->
  let p := preamble_of dev rd in
  let L' := next_len p (byte_pos self) (frame_len self) (byte_to_Z b) in
  byte_pos self <> L' - 1 + p ->
  let r := run dev self (txn dev t e rd [b]) in
  r_exn r = None /\ r_frames r = [] /\
  byte_pos (r_state r) = byte_pos self + 1 /\
  frame_len (r_state r) = L' /\
  checksum_calc (r_state r)
    = checksum_calc self + added p (byte_pos self) (frame_len self) (byte_to_Z b).
Proof.
  intros Hnn p L' Hne r. subst r. unfold txn.
  rewrite run_app by now rewrite run_txn_open_single.
  rewrite run_txn_open_single. cbn [r_state r_frames r_exn app].
  destruct (addressed_fields self t rd) as (Hbp & Hfl & Hcc & Hpo & Hfu).
  destruct (decode_ev_data_context dev (addressed dev self t rd) b)
    as (_ & Hbp1 & _ & Hfu1 & _ & Hpo1).
  destruct (data_step_fields (addressed dev self t rd) b) as (Hfl1 & Hcc1);
    [assumption|lia|rewrite Hpo; apply preamble_of_range|].
  rewrite Hpo, Hbp, Hfl in Hfl1. rewrite Hpo, Hbp, Hfl, Hcc in Hcc1.
  set (s1 := st (decode dev (addressed dev self t rd) (ev_data b))) in *.
  cbn [run]. rewrite decode_ev_stop.
  rewrite decode_stop_advance
    by (try congruence; rewrite Hbp1, Hbp, Hfl1, Hpo1, Hpo; exact Hne).
  cbn [ret st r_state r_frames r_exn option_list app]. hla_simpl.
  subst p L'. repeat split; (lia || congruence).
Qed.

Variable rd : bool.
Variable ts : Z -> Z * Z.

(** The first of a sequence of one-byte transactions. *)
Lemma run_txns_step self k b rest tail :
  0 <= byte_pos self ->
  let p := preamble_of dev rd in
  let L' := next_len p (byte_pos self) (frame_len self) (byte_to_Z b) in
  byte_pos self <> L' - 1 + p ->
  exists s',
    run dev self (txns dev rd ts k (b :: rest) ++ tail)
      = run dev s' (txns dev rd ts (k + 1) rest ++ tail) /\
    byte_pos s' = byte_pos self + 1 /\
    frame_len s' = L' /\
    checksum_calc s'
      = checksum_calc self + added p (byte_pos self) (frame_len self) (byte_to_Z b).
Proof.
  intros Hnn p L' Hne.
  destruct (run_txn_single self (ts k).1 (ts k).2 rd b Hnn Hne)
    as (Hex & Hfr & Hbp & Hfl & Hcc).
  eexists. split; [|split; [exact Hbp|split; [exact Hfl|exact Hcc]]].
  cbn [txns]. rewrite <- app_assoc. rewrite run_app by exact Hex.
  rewrite Hfr. cbn [app].
  now destruct (run dev _ (txns dev rd ts (k + 1) rest ++ tail)).
Qed.

(** The bytes from position [preamble + 2] on, up to the one before the
    last position of the frame. *)
Lemma run_body mid : forall self k tail,
  let p := preamble_of dev rd in
  p + 2 <= byte_pos self ->
  byte_pos self + Z.of_nat (length mid) <= frame_len self - 1 + p ->
  exists s',
    run dev self (txns dev rd ts k mid ++ tail) = run dev s' tail /\
    byte_pos s' = byte_pos self + Z.of_nat (length mid) /\
    frame_len s' = frame_len self /\
    checksum_calc s'
      = checksum_calc self
        + sum_bytes (take (Z.to_nat (frame_len self - 2 + p - byte_pos self)) mid).
Proof.
  induction mid as [|b mid IH]; intros self k tail p Hlo Hhi.
  - exists self. cbn [txns app length] in *. rewrite take_nil. cbn.
    repeat split; lia.
  - pose proof (preamble_of_range dev rd) as Hp. fold p in Hp.
    cbn [length] in Hhi.
    assert (Hlen : next_len p (byte_pos self) (frame_len self) (byte_to_Z b)
                   = frame_len self).
    { unfold next_len.
      destruct (Z.ltb_spec (byte_pos self) p); [lia|].
      destruct (Z.eqb_spec (byte_pos self) p); [lia|].
      destruct (Z.eqb_spec (byte_pos self) (p + 1)); [lia|]. reflexivity. }
    destruct (run_txns_step self k b mid tail) as (s1 & Hrun & Hbp & Hfl & Hcc);
      [lia|fold p; rewrite Hlen; lia|].
    fold p in Hfl, Hcc. rewrite Hlen in Hfl.
    destruct (IH s1 (k + 1) tail) as (s' & Hrun' & Hbp' & Hfl' & Hcc');
      [fold p; lia|fold p; lia|].
    fold p in Hcc'.
    exists s'. rewrite Hrun, Hrun'. split; [reflexivity|].
    split; [cbn [length]; lia|]. split; [congruence|].
    rewrite Hcc', Hcc, Hfl, Hbp. unfold added.
    destruct (Z.leb_spec p (byte_pos self)); [|lia]. cbn [andb].
    destruct (Z.ltb_spec (byte_pos self) (frame_len self - 2 + p)).
    + replace (Z.to_nat (frame_len self - 2 + p - byte_pos self))
        with (S (Z.to_nat (frame_len self - 2 + p - (byte_pos self + 1)))) by lia.
      cbn [take sum_bytes fold_right]. fold (sum_bytes). unfold sum_bytes. lia.
    + replace (Z.to_nat (frame_len self - 2 + p - byte_pos self)) with 0%nat by lia.
      replace (Z.to_nat (frame_len self - 2 + p - (byte_pos self + 1))) with 0%nat by lia.
      rewrite !take_0. cbn. lia.
Qed.

End ChecksumRegion.

Section FrameSum.

Variable dev : string.
Variable rd : bool.
Variable ts : Z -> Z * Z.

(** The preamble slots of a frame: with a preamble of two bytes the first
    two transactions leave declared length and computed checksum alone. *)
Lemma run_preamble self pre rest tail :
  byte_pos self = 0 -> frame_len self = 99 ->
  Z.of_nat (length pre) = preamble_of dev rd ->
  exists k sA,
    run dev self (txns dev rd ts 0 (pre ++ rest) ++ tail)
      = run dev sA (txns dev rd ts k rest ++ tail) /\
    byte_pos sA = preamble_of dev rd /\ frame_len sA = 99 /\
    checksum_calc sA = checksum_calc self.
Proof.
  intros Hbp Hfl Hlen.
  destruct (preamble_of_range dev rd) as [Hp|Hp]; rewrite Hp in *.
  - destruct pre; [|cbn in Hlen; lia].
    exists 0, self. cbn [app]. repeat split; assumption.
  - destruct pre as [|a0 [|a1 [|a2 pre]]]; cbn in Hlen; try lia.
    cbn [app].
    destruct (run_txns_step dev rd ts self 0 a0 (a1 :: rest) tail)
      as (s1 & Hrun1 & Hbp1 & Hfl1 & Hcc1);
      [lia|rewrite Hp, Hbp, Hfl; cbn; lia|].
    rewrite Hp, Hbp, Hfl in Hfl1, Hcc1. cbn in Hfl1, Hcc1.
    rewrite Hbp in Hbp1. change (0 + 1) with 1 in Hbp1.
    destruct (run_txns_step dev rd ts s1 (0 + 1) a1 rest tail)
      as (s2 & Hrun2 & Hbp2 & Hfl2 & Hcc2);
      [lia|rewrite Hp, Hbp1, Hfl1; cbn; lia|].
    rewrite Hp, Hbp1, Hfl1 in Hfl2, Hcc2. cbn in Hfl2, Hcc2.
    exists (0 + 1 + 1), s2. rewrite Hrun1, Hrun2.
    repeat split; lia.
Qed.

End FrameSum.

(** C2, as stated, fails for the short-frame encoding: on the APW profile
    the bytes 0x55 0xAA 23 1 complete a frame of declared length 2, whose
    region [[2, 2)] is empty, with 24 (the bytes 23 and 1) accumulated. *)
Lemma short_frame_sum_counterexample :
  let ts := fun k => (10 * k, 10 * k + 5) in
  let fr := bytes_of [85; 170; 23; 1] in
  let s := r_state (run "APW" init
                      (txns "APW" false ts 0 (bytes_of [85; 170; 23])
                       ++ txn_open "APW" 30 false [x01])) in
  byte_pos s = frame_len s - 1 + preamble_offset s /\
  length (r_frames (run "APW" s [ev_stop 35])) = 1%nat /\
  checksum_calc s = 24 /\
  region_sum (preamble_offset s) (frame_len s) fr = 0 /\
  checksum_calc s <> region_sum (preamble_offset s) (frame_len s) fr.
Proof. vm_compute. repeat split; discriminate. Qed.

(** C2, amended: for a frame that does not use the short-frame encoding,
    decoded from the reset state with one data byte per transaction (all of
    one direction) and a declared length [L] of at least 3, the computed
    checksum at the completing position is the sum of the bytes whose
    positions lie in [[preamble, L - 2 + preamble)]: the length byte through
    the last payload byte, the preamble bytes and the two checksum bytes
    excluded. *)
Theorem checksum_calc_region dev rd ts t self pre bL bc mid bz :
  let p := preamble_of dev rd in
  let L := byte_to_Z bL in
  byte_pos self = 0 -> frame_len self = 99 -> checksum_calc self = 0 ->
  Z.of_nat (length pre) = p ->
  3 <= L -> byte_to_Z bc <> 1 ->
  Z.of_nat (length mid) = L - 3 ->
  let fr := (pre ++ bL :: bc :: mid ++ [bz])%list in
  let s := r_state (run dev self (txns dev rd ts 0 (pre ++ bL :: bc :: mid)
                                  ++ txn_open dev t rd [bz])) in
  byte_pos s = frame_len s - 1 + preamble_offset s /\
  frame_len s = L /\ preamble_offset s = p /\
  checksum_calc s = region_sum p L fr /\
  (forall pl c1, mid = (pl ++ [c1])%list ->
     checksum_calc s = sum_bytes (bL :: bc :: pl)).
Proof.
  intros p L Hbp Hfl Hcc Hpre HL Hbc Hmid fr s.
  pose proof (preamble_of_range dev rd) as Hp. fold p in Hp.
  (* preamble slots *)
  destruct (run_preamble dev rd ts self pre (bL :: bc :: mid)
              (txn_open dev t rd [bz]) Hbp Hfl Hpre)
    as (k & sA & HrunA & HbpA & HflA & HccA).
  fold p in HbpA.
  (* length byte *)
  destruct (run_txns_step dev rd ts sA k bL (bc :: mid) (txn_open dev t rd [bz]))
    as (sB & HrunB & HbpB & HflB & HccB).
  { lia. }
  { fold p. rewrite HbpA. unfold next_len.
    rewrite Z.ltb_irrefl, Z.eqb_refl. fold L. lia. }
  fold p in HflB, HccB. rewrite HbpA, HflA in HflB, HccB.
  unfold next_len in HflB. rewrite Z.ltb_irrefl, Z.eqb_refl in HflB. fold L in HflB.
  unfold added in HccB. rewrite Z.leb_refl in HccB. cbn [andb] in HccB.
  destruct (Z.ltb_spec p (99 - 2 + p)) as [_|]; [|lia]. fold L in HccB.
  (* code byte *)
  assert (HlenC : next_len p (byte_pos sB) (frame_len sB) (byte_to_Z bc) = L).
  { unfold next_len. rewrite HbpB, HbpA, HflB.
    destruct (Z.ltb_spec (p + 1) p); [lia|].
    destruct (Z.eqb_spec (p + 1) p); [lia|].
    rewrite Z.eqb_refl. cbn [andb].
    destruct (Z.eqb_spec (byte_to_Z bc) 1); [contradiction|reflexivity]. }
  destruct (run_txns_step dev rd ts sB (k + 1) bc mid (txn_open dev t rd [bz]))
    as (sC & HrunC & HbpC & HflC & HccC).
  { lia. }
  { fold p. rewrite HlenC. lia. }
  fold p in HflC, HccC. rewrite HlenC in HflC.
  (* the bytes up to the first checksum byte *)
  destruct (run_body dev rd ts mid sC (k + 1 + 1) (txn_open dev t rd [bz]))
    as (sD & HrunD & HbpD & HflD & HccD).
  { fold p. lia. }
  { fold p. lia. }
  fold p in HccD.
  (* the last byte *)
  assert (Hs : s = st (decode dev (addressed dev sD t rd) (ev_data bz))).
  { subst s. rewrite HrunA, HrunB, HrunC, HrunD.
    now rewrite run_txn_open_single. }
  destruct (addressed_fields dev sD t rd) as (HbpE & HflE & HccE & HpoE & HfuE).
  destruct (decode_ev_data_context dev (addressed dev sD t rd) bz)
    as (_ & HbpF & _ & _ & _ & HpoF).
  destruct (data_step_fields dev (addressed dev sD t rd) bz) as (HflF & HccF);
    [assumption|lia|rewrite HpoE; apply preamble_of_range|].
  rewrite <- Hs in HbpF, HpoF, HflF, HccF.
  rewrite HpoE, HbpE, HflE in HflF. rewrite HpoE, HbpE, HflE, HccE in HccF.
  fold p in HflF, HccF, HpoE.
  assert (HposD : byte_pos sD = L - 1 + p) by lia.
  assert (HlenD : frame_len sD = L) by congruence.
  rewrite HposD, HlenD in HflF, HccF.
  unfold next_len in HflF.
  destruct (Z.ltb_spec (L - 1 + p) p); [lia|].
  destruct (Z.eqb_spec (L - 1 + p) p); [lia|].
  destruct (Z.eqb_spec (L - 1 + p) (p + 1)); [lia|]. cbn [andb] in HflF.
  unfold added in HccF.
  destruct (Z.ltb_spec (L - 1 + p) (L - 2 + p)); [lia|].
  rewrite andb_false_r, Z.add_0_r in HccF.
  (* the sum *)
  assert (Hsum : checksum_calc s = region_sum p L fr).
  { rewrite HccF, HccD, HccC, HccB, HccA, Hcc, HflC, HbpC, HbpB, HbpA, HflB.
    unfold region_sum, fr, added.
    replace (Z.to_nat p) with (length pre) by lia. rewrite drop_app_length.
    destruct (Z.leb_spec p (p + 1)); [|lia]. cbn [andb].
    destruct (Z.ltb_spec (p + 1) (L - 2 + p)).
    - replace (Z.to_nat (L - 2)) with (S (S (Z.to_nat (L - 4)))) by lia.
      cbn [take]. rewrite take_app_le by lia.
      replace (L - 2 + p - (p + 1 + 1)) with (L - 4) by lia.
      cbn [sum_bytes fold_right]. fold L. unfold sum_bytes. lia.
    - assert (L = 3) as HL3 by lia.
      destruct mid as [|? ?]; [|cbn [length] in Hmid; lia].
      rewrite HL3, take_nil. change (Z.to_nat (3 - 2)) with 1%nat.
      cbn. fold L. lia. }
  repeat split; try assumption; try congruence.
  intros pl c1 Hpl. rewrite Hsum. unfold region_sum, fr.
  replace (Z.to_nat p) with (length pre) by lia. rewrite drop_app_length.
  rewrite Hpl in Hmid. rewrite length_app in Hmid. cbn [length] in Hmid.
  replace (Z.to_nat (L - 2)) with (S (S (length pl))) by lia.
  cbn [take]. rewrite Hpl, <- !app_assoc. now rewrite take_app_length.
Qed.

Lemma checksum_calc_region_witness :
  checksum_calc
    (r_state (run "dsPIC" init
                (txns "dsPIC" true (fun k => (10 * k, 10 * k + 5)) 0
                   (bytes_of [5; 23; 7; 0])
                 ++ txn_open "dsPIC" 40 true [x23])))
  = 5 + 23 + 7.
Proof.
  refine (proj2 (proj2 (proj2 (proj2
    (checksum_calc_region "dsPIC" true (fun k => (10 * k, 10 * k + 5)) 40 init
       [] x05 x17 [x07; x00] x23 eq_refl eq_refl eq_refl eq_refl _ _ eq_refl))))
    [x07] x00 eq_refl).
  - vm_compute. discriminate.
  - vm_compute. discriminate.
Defined.

(** * Further properties of the analyzer *)

(** ** [get_type] *)

Lemma pic_types_lookup code :
  pic_types !! code =
    if decide (code = 2) then Some "write_app"
    else if decide (code = 6) then Some "jump_app"
    else if decide (code = 7) then Some "init"
    else if decide (code = 9) then Some "erase_app"
    else if decide (code = 16) then Some "set_something_3"
    else if decide (code = 21) then Some "power_switch"
    else if decide (code = 22) then Some "heart_beat"
    else if decide (code = 23) then Some "get_fw_version"
    else if decide (code = 40) then Some "get_something_9"
    else if decide (code = 41) then Some "get_voltage"
    else if decide (code = 43) then Some "get_something_5"
    else if decide (code = 49) then Some "set_something_1"
    else None.
Proof.
  unfold pic_types. cbn [list_to_map foldr uncurry fst snd].
  repeat (rewrite lookup_insert; case_decide;
          [subst code; reflexivity|
           match goal with |- context [decide (code = ?k)] =>
             destruct (decide (code = k)); [congruence|] end]).
  apply lookup_empty.
Qed.

Lemma apw_types_lookup code :
  apw_types !! code = if decide (code = 131) then Some "set_voltage" else None.
Proof.
  unfold apw_types. cbn [list_to_map foldr uncurry fst snd].
  rewrite lookup_insert. case_decide; destruct (decide (code = 131)); try congruence.
  apply lookup_empty.
Qed.

Lemma get_type_names dev code : get_type dev code ∈ type_names.
Proof.
  unfold get_type.
  destruct (String.eqb dev "APW").
  { rewrite apw_types_lookup. destruct (decide (code = 131)); cbn;
      unfold type_names; set_solver. }
  destruct (String.eqb dev "dsPIC"); [|unfold type_names; set_solver].
  rewrite pic_types_lookup.
  repeat match goal with |- context [decide (code = ?k)] =>
    destruct (decide (code = k)); [cbn; unfold type_names; set_solver|] end.
  cbn. unfold type_names. set_solver.
Qed.

(** X1: [get_type] never fails: a device other than the two profiles, and a code
    outside the table of the profile, resolve to ["unknown"]; every result is
    one of the fourteen names of the tables and the fallback. *)
Theorem get_type_fallback dev code :
  (dev <> "APW" -> dev <> "dsPIC" -> get_type dev code = "unknown") /\
  (code <> 131 -> get_type "APW" code = "unknown") /\
  (code ∉ pic_codes -> get_type "dsPIC" code = "unknown") /\
  get_type dev code ∈ type_names.
Proof.
  repeat split.
  - intros Ha Hp. unfold get_type.
    apply String.eqb_neq in Ha, Hp. now rewrite Ha, Hp.
  - intros Hc. unfold get_type. cbn [String.eqb Ascii.eqb Bool.eqb].
    rewrite apw_types_lookup. now destruct (decide (code = 131)).
  - intros Hc. unfold get_type. cbn [String.eqb Ascii.eqb Bool.eqb].
    rewrite pic_types_lookup.
    repeat match goal with |- context [decide (code = ?k)] =>
      destruct (decide (code = k)) as [->|];
        [exfalso; apply Hc; unfold pic_codes; set_solver|] end.
    reflexivity.
  - apply get_type_names.
Qed.

Lemma get_type_fallback_witness :
  get_type "Other" 23 = "unknown" /\ get_type "APW" 23 = "unknown" /\
  get_type "dsPIC" 99 = "unknown".
Proof.
  destruct (get_type_fallback "Other" 23) as (H1 & _).
  destruct (get_type_fallback "APW" 23) as (_ & H2 & _).
  destruct (get_type_fallback "dsPIC" 99) as (_ & _ & H3 & _).
  split; [|split].
  - apply H1; discriminate.
  - apply H2. lia.
  - apply H3. unfold pic_codes. rewrite !not_elem_of_cons.
    repeat split; try discriminate. apply not_elem_of_nil.
Defined.

(** ** Where frames come from and what they leave behind *)

Lemma decode_frame_inv dev self frame f :
  ret (decode dev self frame) = Return (Some f) ->
  d_error (data frame) = None /\ ftype frame = "stop" /\
  for_us self = true /\
  byte_pos self = frame_len self - 1 + preamble_offset self /\
  exists p, format_payload self = Some p.
Proof.
  unfold decode.
  destruct (d_error (data frame)); [discriminate|].
  destruct (String.eqb (ftype frame) "start"); [discriminate|].
  destruct (String.eqb (ftype frame) "address").
  { unfold decode_address.
    destruct (d_address (data frame)) as [bs|]; [|discriminate].
    destruct (bs !! 0%nat); [|discriminate].
    destruct (_ =? _); [|discriminate].
    destruct (d_read (data frame)); discriminate. }
  destruct (String.eqb (ftype frame) "data").
  { unfold decode_data.
    destruct (negb (for_us self)); [discriminate|].
    destruct (d_data (data frame)) as [bs|]; [|discriminate].
    destruct (bs !! 0%nat) as [b|]; [|discriminate].
    destruct (check_preamble self b); discriminate. }
  destruct (String.eqb_spec (ftype frame) "stop") as [Hs|]; [|discriminate].
  unfold decode_stop.
  destruct (for_us self); [|discriminate]. cbn [negb]. hla_simpl.
  destruct (Z.eqb_spec (byte_pos self) (frame_len self - 1 + preamble_offset self));
    [|discriminate].
  change (format_payload (set_last_read _ _)) with (format_payload self).
  destruct (format_payload self) as [p|]; [|discriminate].
  intros _. repeat split; try assumption. now exists p.
Qed.

(** X2: [decode] returns a frame only for a stop event that carries no error,
    in a transaction addressed to the device, at the last position of the
    frame, and with a payload long enough for its interpretation; no start,
    address or data event ever returns one. *)
Theorem frame_only_at_completing_stop dev self frame f :
  ret (decode dev self frame) = Return (Some f) ->
  d_error (data frame) = None /\ ftype frame = "stop" /\
  for_us self = true /\
  byte_pos self = frame_len self - 1 + preamble_offset self /\
  (payload_needed self <= length (payload self))%nat.
Proof.
  intros H. apply decode_frame_inv in H as (He & Ht & Hf & Hp & p & Hfp).
  repeat split; try assumption.
  destruct (Nat.le_gt_cases (payload_needed self) (length (payload self)))
    as [Hle|Hgt]; [exact Hle|].
  rewrite format_payload_none in Hfp by exact Hgt. discriminate.
Qed.

Lemma frame_only_at_completing_stop_witness :
  byte_pos (closing true "heart_beat" [x01; x02] 30 30)
  = frame_len (closing true "heart_beat" [x01; x02] 30 30) - 1
    + preamble_offset (closing true "heart_beat" [x01; x02] 30 30).
Proof.
  refine (proj1 (proj2 (proj2 (proj2
    (frame_only_at_completing_stop "dsPIC" (closing true "heart_beat" [x01; x02] 30 30)
       (ev_stop 45) _ eq_refl))))).
Defined.

(** X3: when [decode] returns a frame, the frame reports the state it was
    assembled from (frame start, the stop's end time, direction, declared
    length and code) and the analyzer is ready for the next frame: byte
    position 0, declared length 99, empty payload, both checksums 0, and the
    frame start set to the start of the current transaction.  Code, type,
    direction, preamble length and [for_us] stay as they were. *)
Theorem frame_emission_effect dev self frame f :
  ret (decode dev self frame) = Return (Some f) ->
  let s' := st (decode dev self frame) in
  (a_start_time f = start_of_frame self /\
   a_end_time f = Some (end_time frame) /\
   a_direction f = (if read self then "response" else "request") /\
   a_len f = str (frame_len self) /\ a_code f = str (code self)) /\
  (byte_pos s' = 0 /\ frame_len s' = 99 /\ payload s' = [] /\
   checksum_read s' = 0 /\ checksum_calc s' = 0 /\
   start_of_frame s' = start_of_transaction self /\
   end_of_frame s' = Some (end_time frame) /\ last_read s' = read self) /\
  (code s' = code self /\ type s' = type self /\ read s' = read self /\
   preamble_offset s' = preamble_offset self /\ for_us s' = for_us self /\
   start_of_transaction s' = start_of_transaction self).
Proof.
  intros H s'. subst s'.
  destruct (decode_frame_inv _ _ _ _ H) as (He & Ht & Hf & Hp & p & Hfp).
  revert H. rewrite decode_is_stop by assumption.
  rewrite decode_stop_complete by assumption. rewrite Hfp.
  cbn [ret st]. intros [= <-]. cbn. repeat split.
Qed.

Lemma frame_emission_effect_witness :
  byte_pos (st (decode "dsPIC" (closing true "heart_beat" [x01; x02] 30 30)
                  (ev_stop 45))) = 0.
Proof.
  refine (proj1 (proj1 (proj2
    (frame_emission_effect "dsPIC" (closing true "heart_beat" [x01; x02] 30 30)
       (ev_stop 45) _ eq_refl)))).
Defined.

(** ** What holds in every state the analyzer can reach *)

Section Reachable.

Variable dev : string.

(** A property kept by every call of [decode] holds after any sequence of
    events, and what it implies for a returned frame holds of every frame of
    the sequence. *)
Lemma run_invariant (P : Hla -> Prop) (Q : AnalyzerFrame -> Prop) :
  (forall s f, P s -> P (st (decode dev s f))) ->
  (forall s f fr, P s -> ret (decode dev s f) = Return (Some fr) -> Q fr) ->
  forall l s, P s ->
    P (r_state (run dev s l)) /\ Forall Q (r_frames (run dev s l)).
Proof.
  intros Hstep Hout. induction l as [|f l IH]; intros s Hs.
  - cbn. split; [exact Hs|constructor].
  - cbn [run]. destruct (ret (decode dev s f)) as [r|e] eqn:Hret.
    + destruct (IH _ (Hstep s f Hs)) as [HP HQ].
      cbn [r_state r_frames]. split; [exact HP|].
      apply Forall_app. split; [|exact HQ].
      destruct r as [fr|]; cbn [option_list]; [|apply Forall_nil_2].
      apply Forall_cons_2; [exact (Hout s f fr Hs Hret)|apply Forall_nil_2].
    + cbn. split; [now apply Hstep|constructor].
Qed.

Lemma well_ranged_decode s f : well_ranged s -> well_ranged (st (decode dev s f)).
Proof.
  intros (Hbp & Hpo & Hfl & Hco & Hcr & Hcc).
  assert (Hkeep : well_ranged s) by (repeat split; (assumption || lia)).
  unfold decode.
  destruct (d_error (data f)); [exact Hkeep|].
  destruct (String.eqb (ftype f) "start").
  { unfold decode_start. cbn [st]. hla_simpl.
    destruct (byte_pos s =? 0); exact Hkeep. }
  destruct (String.eqb (ftype f) "address").
  { unfold decode_address.
    destruct (d_address (data f)) as [bs|]; [|exact Hkeep].
    destruct (bs !! 0%nat); [|exact Hkeep].
    destruct (_ =? _); [|exact Hkeep].
    destruct (d_read (data f)) as [r|]; [|exact Hkeep].
    cbn [st]. hla_simpl.
    destruct (r && _); unfold well_ranged; hla_simpl;
      repeat split; (assumption || lia || auto). }
  destruct (String.eqb (ftype f) "data").
  { unfold decode_data.
    destruct (negb (for_us s)); [exact Hkeep|].
    destruct (d_data (data f)) as [bs|]; [|exact Hkeep].
    destruct (bs !! 0%nat) as [b|]; [|exact Hkeep].
    destruct (check_preamble s b); [exact Hkeep|].
    pose proof (byte_to_Z_range b) as Hb.
    assert (Hsh : 0 <= Z.shiftl (byte_to_Z b) 8)
      by (rewrite Z.shiftl_mul_pow2 by lia; lia).
    cbn [st]. rewrite accumulate_eq. unfold parse_data, checksum_le, well_ranged.
    hla_simpl.
    repeat match goal with
           | |- context [if ?c then _ else _] => destruct c; hla_simpl
           end;
      repeat split; (assumption || lia). }
  destruct (String.eqb (ftype f) "stop"); [|exact Hkeep].
  unfold decode_stop.
  destruct (negb (for_us s)); [exact Hkeep|]. hla_simpl.
  destruct (_ =? _).
  - change (format_payload (set_last_read _ _)) with (format_payload s).
    destruct (format_payload s); cbn [st]; unfold well_ranged, reset_frame;
      hla_simpl; repeat split; (assumption || lia).
  - cbn [st]. unfold well_ranged. hla_simpl. repeat split; (assumption || lia).
Qed.

Lemma well_ranged_frame s f fr :
  well_ranged s -> ret (decode dev s f) = Return (Some fr) ->
  exists L c, 0 <= L <= 255 /\ 0 <= c <= 255 /\ a_len fr = str L /\ a_code fr = str c.
Proof.
  intros (Hbp & Hpo & Hfl & Hco & Hcr & Hcc) Hret.
  destruct (decode_frame_inv _ _ _ _ Hret) as (He & Ht & Hf & Hp & p & Hfp).
  revert Hret. rewrite decode_is_stop by assumption.
  rewrite decode_stop_complete by assumption. rewrite Hfp.
  cbn [ret]. intros [= <-]. cbn. eauto 10.
Qed.

End Reachable.

(** X4: whatever events a fresh analyzer is fed (of any type, with any data
    dictionary), its byte position never becomes negative, its preamble
    length is 0 or 2, its declared length and code stay byte values, and its
    checksums stay non-negative; the [len] and [code] fields of every frame
    it returns are decimal renderings of byte values. *)
Theorem reachable_ranges dev (frames : list I2cFrame) :
  let s := r_state (run dev init frames) in
  (0 <= byte_pos s /\
   (preamble_offset s = 0 \/ preamble_offset s = 2) /\
   0 <= frame_len s <= 255 /\ 0 <= code s <= 255 /\
   0 <= checksum_read s /\ 0 <= checksum_calc s) /\
  Forall (fun fr => exists L c, 0 <= L <= 255 /\ 0 <= c <= 255 /\
                                a_len fr = str L /\ a_code fr = str c)
         (r_frames (run dev init frames)).
Proof.
  apply (run_invariant dev (well_ranged)
           (fun fr => exists L c, 0 <= L <= 255 /\ 0 <= c <= 255 /\
                                  a_len fr = str L /\ a_code fr = str c)).
  - apply well_ranged_decode.
  - apply well_ranged_frame.
  - unfold well_ranged. cbn. lia.
Qed.

(** ** The types of returned frames *)

Section Types.

Variable dev : string.

Lemma decode_type_cases s f :
  type (st (decode dev s f)) = type s \/
  exists c, type (st (decode dev s f)) = get_type dev c.
Proof.
  unfold decode.
  destruct (d_error (data f)); [now left|].
  destruct (String.eqb (ftype f) "start").
  { unfold decode_start. cbn [st]. hla_simpl. destruct (byte_pos s =? 0); now left. }
  destruct (String.eqb (ftype f) "address").
  { unfold decode_address.
    destruct (d_address (data f)) as [bs|]; [|now left].
    destruct (bs !! 0%nat); [|now left].
    destruct (_ =? _); [|now left].
    destruct (d_read (data f)) as [r|]; [|now left].
    cbn [st]. hla_simpl. destruct (r && _); now left. }
  destruct (String.eqb (ftype f) "data").
  { unfold decode_data.
    destruct (negb (for_us s)); [now left|].
    destruct (d_data (data f)) as [bs|]; [|now left].
    destruct (bs !! 0%nat) as [b|]; [|now left].
    destruct (check_preamble s b); [now left|].
    cbn [st]. rewrite accumulate_eq. unfold parse_data. hla_simpl.
    repeat match goal with
           | |- context [if ?c then _ else _] => destruct c; hla_simpl
           end; eauto. }
  destruct (String.eqb (ftype f) "stop"); [|now left].
  unfold decode_stop.
  destruct (negb (for_us s)); [now left|]. hla_simpl.
  destruct (_ =? _); [|now left].
  change (format_payload (set_last_read _ _)) with (format_payload s).
  destruct (format_payload s); now left.
Qed.

Lemma typed_decode s f : typed s -> typed (st (decode dev s f)).
Proof.
  intros Hs. unfold typed.
  destruct (decode_type_cases s f) as [->|[c ->]]; [exact Hs|].
  right. apply get_type_names.
Qed.

Lemma typed_frame s f fr :
  typed s -> ret (decode dev s f) = Return (Some fr) -> declared fr.
Proof.
  intros Hs Hret.
  destruct (decode_frame_inv _ _ _ _ Hret) as (He & Ht & Hf & Hp & p & Hfp).
  revert Hret. rewrite decode_is_stop by assumption.
  rewrite decode_stop_complete by assumption. rewrite Hfp.
  cbn [ret]. intros [= <-]. unfold declared. cbn [a_type].
  destruct Hs as [->|Hin].
  - left. now rewrite andb_false_r.
  - right. unfold type_names in Hin.
    repeat (apply elem_of_cons in Hin as [->|Hin];
            [destruct (read s); vm_compute; eexists; reflexivity|]).
    now apply elem_of_nil in Hin.
Qed.

End Types.

(** X5: every frame a fresh analyzer returns, whatever events it is fed, has
    a type declared in [result_types] (the request name, or the response name
    with its ["_resp"] suffix), or the empty type of a frame completed before
    any code byte was parsed. *)
Theorem emitted_types_declared dev (frames : list I2cFrame) :
  Forall (fun fr => a_type fr = "" \/ is_Some (result_types !! a_type fr))
         (r_frames (run dev init frames)).
Proof.
  apply (run_invariant dev (typed) (declared)).
  - apply typed_decode.
  - apply typed_frame.
  - now left.
Qed.

(** ** Events the analyzer does not act on *)

Section Noise.

Variable dev : string.

Lemma decode_unhandled s f :
  unhandled f -> st (decode dev s f) = s /\ ret (decode dev s f) = Return None.
Proof.
  intros [[e He]|(H1 & H2 & H3 & H4)]; unfold decode.
  - now rewrite He.
  - destruct (d_error (data f)); [now split|].
    apply String.eqb_neq in H1, H2, H3, H4. now rewrite H1, H2, H3, H4.
Qed.

Lemma run_skip s f rest :
  st (decode dev s f) = s -> ret (decode dev s f) = Return None ->
  run dev s (f :: rest) = run dev s rest.
Proof.
  intros Hst Hret. cbn [run]. rewrite Hret, Hst. cbn.
  now destruct (run dev s rest).
Qed.

Lemma run_not_for_us_app body : forall s rest,
  for_us s = false ->
  Forall (fun f => ftype f = "data" \/ ftype f = "stop") body ->
  run dev s (body ++ rest) = run dev s rest.
Proof.
  induction body as [|f body IH]; intros s rest Hf Hall; [reflexivity|].
  inversion Hall as [|? ? Hhd Htl]; subst.
  destruct (decode_not_for_us dev s f Hf Hhd) as [Hst Hret].
  cbn [app]. rewrite run_skip by assumption. now apply IH.
Qed.

End Noise.

(** X6: an event that carries an ['error'] entry, or whose type is none of
    start, address, data and stop, can be dropped from any event sequence
    without changing the final state, the returned frames or the exception:
    the analyzer only prints the error and goes on. *)
Theorem unhandled_event_transparent dev s before f after :
  unhandled f ->
  run dev s (before ++ f :: after) = run dev s (before ++ after).
Proof.
  intros Hf. revert s. induction before as [|g before IH]; intros s.
  - cbn [app]. destruct (decode_unhandled dev s f Hf) as [Hst Hret].
    now apply run_skip.
  - cbn [app run]. destruct (ret (decode dev s g)); [|reflexivity].
    now rewrite IH.
Qed.

Lemma unhandled_event_transparent_witness :
  run "dsPIC" init
    (txn "dsPIC" 0 5 true [x02]
     ++ mkI2c "data" 6 7 (mkData (Some "NAK") None None (Some [x09]))
     :: txn "dsPIC" 10 15 true [x07])
  = run "dsPIC" init (txn "dsPIC" 0 5 true [x02] ++ txn "dsPIC" 10 15 true [x07]).
Proof.
  apply (unhandled_event_transparent "dsPIC" init (txn "dsPIC" 0 5 true [x02])).
  left. eexists. reflexivity.
Defined.

(** X7: a whole transaction addressed to another device, placed before a
    transaction addressed to the analyzer's device, changes nothing: the
    state after the start and address events of the for-us transaction is the
    same with and without it, and so is everything that follows (the start
    event of the foreign transaction may move the frame start, but the start
    event that follows moves it again). *)
Theorem foreign_transaction_transparent dev s t' a rd' body t rd rest :
  byte_to_Z a <> expected_addr dev ->
  Forall (fun f => ftype f = "data" \/ ftype f = "stop") body ->
  run dev s (ev_start t' :: ev_address a rd' :: body
             ++ ev_start t :: ev_address (addr_of dev) rd :: rest)
  = run dev s (ev_start t :: ev_address (addr_of dev) rd :: rest).
Proof.
  intros Ha Hbody.
  rewrite (run_step_none dev s (ev_start t')) by reflexivity.
  rewrite decode_ev_start. cbn [st].
  match goal with |- run dev ?s1 (ev_address a rd' :: ?l) = _ =>
    assert (Hd : decode dev s1 (ev_address a rd') =
                 mkOut (set_for_us false s1) [] (Return None))
  end.
  { rewrite decode_is_address by reflexivity. unfold decode_address. cbn.
    destruct (Z.eqb_spec (byte_to_Z a) (expected_addr dev)); [contradiction|].
    reflexivity. }
  rewrite run_step_none by now rewrite Hd.
  rewrite Hd. cbn [st].
  rewrite run_not_for_us_app by (reflexivity || assumption).
  rewrite !(run_step_none dev _ (ev_start t)) by reflexivity.
  rewrite !decode_ev_start. cbn [st].
  rewrite !(run_step_none dev _ (ev_address (addr_of dev) rd))
    by now rewrite decode_ev_address.
  rewrite !decode_ev_address. cbn [st]. clear Hd.
  f_equal. destruct (byte_pos s =? 0) eqn:E; hla_simpl; rewrite ?E; reflexivity.
Qed.

Lemma foreign_transaction_transparent_witness :
  run "dsPIC" init
    (ev_start 1 :: ev_address x10 false :: [ev_data x55; ev_data xaa; ev_stop 4]
     ++ ev_start 10 :: ev_address (addr_of "dsPIC") true :: [ev_data x02; ev_stop 15])
  = run "dsPIC" init
      (ev_start 10 :: ev_address (addr_of "dsPIC") true :: [ev_data x02; ev_stop 15]).
Proof.
  apply (foreign_transaction_transparent "dsPIC" init 1 x10 false
           [ev_data x55; ev_data xaa; ev_stop 4] 10 true [ev_data x02; ev_stop 15]).
  - vm_compute. discriminate.
  - repeat (apply Forall_cons_2; [(left; reflexivity) || (right; reflexivity)|]).
    apply Forall_nil_2.
Defined.

(** ** The preamble slots *)

Lemma decode_data_slot dev s b :
  for_us s = true -> preamble_offset s = 2 ->
  byte_pos s = 0 \/ byte_pos s = 1 ->
  st (decode dev s (ev_data b)) = s /\
  ret (decode dev s (ev_data b)) = Return None /\
  (printed (decode dev s (ev_data b)) = [] <->
   byte_to_Z b = if byte_pos s =? 0 then 85 else 170).
Proof.
  intros Hf Hp Hk. rewrite decode_is_data by reflexivity.
  unfold decode_data. rewrite Hf. cbn [negb data d_data ev_data].
  change ([b] !! 0%nat) with (Some b).
  unfold check_preamble. rewrite Hp. cbn [Z.eqb Pos.eqb].
  destruct Hk as [-> | ->]; cbn [Z.eqb Pos.eqb st ret printed].
  - split; [reflexivity|]. split; [reflexivity|].
    destruct (Z.eqb_spec (byte_to_Z b) 85); cbn; split; congruence.
  - split; [reflexivity|]. split; [reflexivity|].
    destruct (Z.eqb_spec (byte_to_Z b) 170); cbn; split; congruence.
Qed.

(** X8: with a two-byte preamble, the data byte of a transaction at position
    0 or 1 is only compared with 0x55 (position 0) or 0xAA (position 1): a
    diagnostic is printed exactly when it differs, the state is left as the
    address event made it in both cases, and the transaction has the same
    outcome whatever the byte is. *)
Theorem preamble_byte_unchecked dev s t e rd b b' :
  preamble_of dev rd = 2 ->
  byte_pos s = 0 \/ byte_pos s = 1 ->
  let s0 := addressed dev s t rd in
  st (decode dev s0 (ev_data b)) = s0 /\
  (printed (decode dev s0 (ev_data b)) = [] <->
   byte_to_Z b = if byte_pos s =? 0 then 85 else 170) /\
  run dev s (txn dev t e rd [b]) = run dev s (txn dev t e rd [b']).
Proof.
  intros Hp Hk s0.
  destruct (addressed_fields dev s t rd) as (Hbp & _ & _ & Hpo & Hfu).
  fold s0 in Hbp, Hpo, Hfu. rewrite Hp in Hpo.
  assert (Hk0 : byte_pos s0 = 0 \/ byte_pos s0 = 1) by (rewrite Hbp; exact Hk).
  destruct (decode_data_slot dev s0 b Hfu Hpo Hk0) as (Hst & _ & Hpr).
  destruct (decode_data_slot dev s0 b' Hfu Hpo Hk0) as (Hst' & _ & _).
  rewrite Hbp in Hpr.
  split; [exact Hst|]. split; [exact Hpr|].
  unfold txn. rewrite !run_app by now rewrite run_txn_open_single.
  rewrite !run_txn_open_single. cbn [r_state r_frames r_exn]. fold s0.
  now rewrite Hst, Hst'.
Qed.

Lemma preamble_byte_unchecked_witness :
  run "APW" init (txn "APW" 0 5 false [x12]) = run "APW" init (txn "APW" 0 5 false [x55]).
Proof.
  refine (proj2 (proj2 (preamble_byte_unchecked "APW" init 0 5 false x12 x55
                          eq_refl _))).
  left. reflexivity.
Defined.

(** ** Exceptions *)

(** X9: [decode] raises only in three situations, never on a start event or
    on an event carrying an ['error'] entry, and never on a data or stop event
    of a transaction that is not for the device: an address event without
    ['address'] (or with an empty one), or matching the device but without
    ['read']; a for-us data event without ['data'] (or with an empty one); and
    the stop event that completes a frame whose payload is too short for its
    interpretation. *)
Theorem exceptions_of_decode dev s f e :
  ret (decode dev s f) = Raise e ->
  d_error (data f) = None /\
  ((ftype f = "address" /\
    ((d_address (data f) = None /\ e = KeyError "address") \/
     (d_address (data f) = Some [] /\ e = IndexError) \/
     (exists a tl, d_address (data f) = Some (a :: tl) /\
                   byte_to_Z a = expected_addr dev /\
                   d_read (data f) = None /\ e = KeyError "read"))) \/
   (ftype f = "data" /\ for_us s = true /\
    ((d_data (data f) = None /\ e = KeyError "data") \/
     (d_data (data f) = Some [] /\ e = IndexError))) \/
   (ftype f = "stop" /\ for_us s = true /\
    byte_pos s = frame_len s - 1 + preamble_offset s /\
    (length (payload s) < payload_needed s)%nat /\ e = IndexError)).
Proof.
  unfold decode.
  destruct (d_error (data f)); [discriminate|].
  destruct (String.eqb (ftype f) "start"); [discriminate|].
  destruct (String.eqb_spec (ftype f) "address") as [Ha|_].
  { unfold decode_address. intros H. split; [reflexivity|]. left.
    split; [exact Ha|].
    destruct (d_address (data f)) as [[|a tl]|]; cbn in H.
    - right. left. split; [reflexivity|congruence].
    - destruct (Z.eqb_spec (byte_to_Z a) (expected_addr dev)); [|discriminate].
      destruct (d_read (data f)); [discriminate|].
      cbn in H. right. right. exists a, tl.
      repeat split; (assumption || congruence).
    - left. split; [reflexivity|congruence]. }
  destruct (String.eqb_spec (ftype f) "data") as [Hd|_].
  { unfold decode_data. intros H. split; [reflexivity|]. right. left.
    split; [exact Hd|].
    destruct (for_us s); [|discriminate]. split; [reflexivity|].
    cbn [negb] in H.
    destruct (d_data (data f)) as [[|b tl]|]; cbn in H.
    - right. split; [reflexivity|congruence].
    - destruct (check_preamble s b); discriminate.
    - left. split; [reflexivity|congruence]. }
  destruct (String.eqb_spec (ftype f) "stop") as [Hs|_]; [|discriminate].
  unfold decode_stop. intros H. split; [reflexivity|]. right. right.
  split; [exact Hs|].
  destruct (for_us s); [|discriminate]. split; [reflexivity|].
  cbn [negb] in H. hla_simpl_in H.
  destruct (Z.eqb_spec (byte_pos s) (frame_len s - 1 + preamble_offset s));
    [|discriminate].
  split; [assumption|].
  change (format_payload (set_last_read _ _)) with (format_payload s) in H.
  destruct (format_payload s) eqn:Hfp; [discriminate|].
  split; [|cbn in H; congruence].
  destruct (Nat.le_gt_cases (payload_needed s) (length (payload s)))
    as [Hle|Hgt]; [|exact Hgt].
  destruct (format_payload_some s Hle) as [p Hp]. congruence.
Qed.

Lemma exceptions_of_decode_witness :
  d_error (data (ev_stop 45)) = None.
Proof.
  refine (proj1 (exceptions_of_decode "dsPIC"
            (closing true "get_voltage" [x01; x02] 30 30) (ev_stop 45)
            IndexError eq_refl)).
Defined.

(** ** A frame whose payload is too short *)

Section Wedge.

Variable dev : string.

Lemma same_frame_refl s : same_frame s s.
Proof. repeat split. Qed.

Lemma decode_data_last_pos s b :
  for_us s = true -> 0 <= preamble_offset s -> 3 <= frame_len s ->
  byte_pos s = frame_len s - 1 + preamble_offset s ->
  ret (decode dev s (ev_data b)) = Return None /\
  same_frame s (st (decode dev s (ev_data b))).
Proof.
  intros Hf Hp HL Hpos.
  rewrite decode_data_parsed by (assumption || lia).
  rewrite accumulate_checksum_pos by lia.
  rewrite parse_data_checksum2 by assumption.
  split; [reflexivity|]. cbn [st]. repeat split.
Qed.

Lemma run_data_last_pos ds : forall s,
  for_us s = true -> 0 <= preamble_offset s -> 3 <= frame_len s ->
  byte_pos s = frame_len s - 1 + preamble_offset s ->
  r_exn (run dev s (map ev_data ds)) = None /\
  r_frames (run dev s (map ev_data ds)) = [] /\
  same_frame s (r_state (run dev s (map ev_data ds))).
Proof.
  induction ds as [|b ds IH]; intros s Hf Hp HL Hpos.
  - cbn. repeat split.
  - destruct (decode_data_last_pos s b Hf Hp HL Hpos)
      as (Hret & Hbp & Hfl & Hpo & Hfu & Hrd & Hty & Hpl).
    cbn [map]. rewrite run_step_none by exact Hret.
    destruct (IH (st (decode dev s (ev_data b))))
      as (Hex & Hfr & Hbp' & Hfl' & Hpo' & Hfu' & Hrd' & Hty' & Hpl');
      try congruence.
    split; [exact Hex|]. split; [exact Hfr|].
    repeat split; congruence.
Qed.

End Wedge.

(** X10: when the stop event that completes a frame raises [IndexError]
    (payload too short), nothing is reset, and the analyzer stays at the last
    position of that frame: the next transaction of the same direction,
    whatever data bytes it carries, raises [IndexError] at its stop event
    again and returns no frame. *)
Theorem short_payload_wedges dev s e t e' ds :
  for_us s = true ->
  preamble_offset s = preamble_of dev (read s) ->
  byte_pos s = frame_len s - 1 + preamble_offset s ->
  3 <= frame_len s ->
  (length (payload s) < payload_needed s)%nat ->
  ret (decode dev s (ev_stop e)) = Raise IndexError /\
  let r := run dev (st (decode dev s (ev_stop e))) (txn dev t e' (read s) ds) in
  r_exn r = Some IndexError /\ r_frames r = [] /\ same_frame s (r_state r).
Proof.
  intros Hf Hp Hpos HL Hshort.
  pose proof (preamble_of_range dev (read s)) as Hrange. rewrite <- Hp in Hrange.
  rewrite decode_ev_stop, decode_stop_complete by assumption.
  rewrite format_payload_none by assumption. cbn [ret st end_time ev_stop].
  split; [reflexivity|].
  set (s1 := set_last_read (read s) (set_end_of_frame (Some e) s)).
  cbv zeta.
  unfold txn.
  rewrite run_app by apply run_txn_open. 
  destruct (run_txn_open dev s1 t (read s) ds) as (_ & Hfr & _).
  rewrite Hfr. cbn [app].
  assert (Hs3 : same_frame s (r_state (run dev s1 (txn_open dev t (read s) ds)))).
  { unfold txn_open.
    rewrite (run_step_none dev s1 (ev_start t)) by reflexivity.
    rewrite decode_ev_start. cbn [st].
    rewrite run_step_none by now rewrite decode_ev_address.
    rewrite decode_ev_address. cbn [st].
    match goal with |- same_frame s (r_state (run dev ?s2 _)) =>
      assert (H2 : same_frame s s2)
        by (subst s1; destruct (byte_pos _ =? 0); repeat split;
            hla_simpl; congruence);
      destruct H2 as (Hbp & Hfl & Hpo & Hfu & Hrd & Hty & Hpl);
      destruct (run_data_last_pos dev ds s2)
        as (_ & _ & Hbp' & Hfl' & Hpo' & Hfu' & Hrd' & Hty' & Hpl');
        try congruence; try lia
    end.
    repeat split; congruence. }
  destruct Hs3 as (Hbp & Hfl & Hpo & Hfu & Hrd & Hty & Hpl).
  set (s3 := r_state (run dev s1 (txn_open dev t (read s) ds))) in *.
  assert (Hraise : ret (decode dev s3 (ev_stop e')) = Raise IndexError).
  { rewrite decode_ev_stop. apply decode_stop_short_payload; try congruence.
    unfold payload_needed. now rewrite Hrd, Hty, Hpl. }
  cbn [run]. rewrite Hraise. cbn [r_exn r_frames r_state].
  split; [reflexivity|]. split; [reflexivity|].
  rewrite decode_ev_stop, decode_stop_complete by congruence.
  rewrite format_payload_none
    by (unfold payload_needed; now rewrite Hrd, Hty, Hpl).
  cbn [st]. repeat split; hla_simpl; assumption.
Qed.

Lemma short_payload_wedges_witness :
  r_exn (run "dsPIC"
           (st (decode "dsPIC" (closing true "get_voltage" [x01; x02] 30 30)
                  (ev_stop 45)))
           (txn "dsPIC" 50 55 true [x03; x04]))
  = Some IndexError.
Proof.
  refine (proj1 (proj2 (short_payload_wedges "dsPIC"
     (closing true "get_voltage" [x01; x02] 30 30) 45 50 55 [x03; x04]
     eq_refl eq_refl eq_refl _ _))).
  - cbn. lia.
  - cbn. lia.
Defined.

(** ** The payload field of a returned frame *)

Lemma decode_frame_payload dev s frame f :
  ret (decode dev s frame) = Return (Some f) ->
  format_payload s = Some (a_payload f).
Proof.
  intros H.
  destruct (decode_frame_inv _ _ _ _ H) as (He & Ht & Hf & Hp & p & Hfp).
  revert H. rewrite decode_is_stop by assumption.
  rewrite decode_stop_complete by assumption. rewrite Hfp.
  cbn [ret]. now intros [= <-].
Qed.

(** X11: the payload field of a returned frame, for the interpreted types: a
    get_fw_version response shows the first payload byte in decimal; a
    power_switch request shows ["OFF"] when the first payload byte is 0 and
    ["ON"] for any other value; a get_voltage response takes the 16-bit
    big-endian value of payload bytes 1 and 2, and a set_voltage frame (either
    direction) that of payload bytes 0 and 1. *)
Theorem interpreted_payloads dev s frame f :
  ret (decode dev s frame) = Return (Some f) ->
  (read s = true -> type s = "get_fw_version" ->
     exists b, payload s !! 0%nat = Some b /\
               a_payload f = PStr (str (byte_to_Z b))) /\
  (read s = false -> type s = "power_switch" ->
     exists b, payload s !! 0%nat = Some b /\
               (byte_to_Z b = 0 -> a_payload f = PStr "OFF") /\
               (byte_to_Z b <> 0 -> a_payload f = PStr "ON")) /\
  (read s = true -> type s = "get_voltage" ->
     exists b1 b2, payload s !! 1%nat = Some b1 /\ payload s !! 2%nat = Some b2 /\
       a_payload f = PVolt (byte_to_Z b1 * 256 + byte_to_Z b2) /\
       0 <= byte_to_Z b1 * 256 + byte_to_Z b2 <= 65535) /\
  (type s = "set_voltage" ->
     exists b0 b1, payload s !! 0%nat = Some b0 /\ payload s !! 1%nat = Some b1 /\
       a_payload f = PVolt (byte_to_Z b0 * 256 + byte_to_Z b1) /\
       0 <= byte_to_Z b0 * 256 + byte_to_Z b1 <= 65535).
Proof.
  intros H. apply decode_frame_payload in H.
  unfold format_payload, payload_at in H.
  repeat split.
  - intros Hr Hty. rewrite Hr, Hty in H. cbn in H.
    destruct (payload s !! 0%nat) as [b|]; [|discriminate].
    exists b. split; [reflexivity|]. cbn in H. congruence.
  - intros Hr Hty. rewrite Hr, Hty in H. cbn in H.
    destruct (payload s !! 0%nat) as [b|]; [|discriminate].
    exists b. split; [reflexivity|]. cbn in H.
    destruct (Z.eqb_spec (byte_to_Z b) 0); split; intros; congruence.
  - intros Hr Hty. rewrite Hr, Hty in H. cbn in H.
    destruct (payload s !! 1%nat) as [b1|]; [|discriminate].
    destruct (payload s !! 2%nat) as [b2|]; [|discriminate].
    exists b1, b2. cbn in H.
    pose proof (byte_to_Z_range b1). pose proof (byte_to_Z_range b2).
    repeat split; (congruence || lia).
  - intros Hty. rewrite Hty in H. cbn in H. rewrite !andb_false_r in H.
    destruct (payload s !! 0%nat) as [b0|]; [|discriminate].
    destruct (payload s !! 1%nat) as [b1|]; [|discriminate].
    exists b0, b1. cbn in H.
    pose proof (byte_to_Z_range b0). pose proof (byte_to_Z_range b1).
    repeat split; (congruence || lia).
Qed.

Lemma interpreted_payloads_witness :
  exists b1 b2,
    payload (closing true "get_voltage" [x01; x0b; xb8] 30 30) !! 1%nat = Some b1 /\
    payload (closing true "get_voltage" [x01; x0b; xb8] 30 30) !! 2%nat = Some b2 /\
    byte_to_Z b1 * 256 + byte_to_Z b2 = 3000.
Proof.
  destruct (interpreted_payloads "dsPIC"
              (closing true "get_voltage" [x01; x0b; xb8] 30 30) (ev_stop 45) _ eq_refl)
    as (_ & _ & Hv & _).
  destruct (Hv eq_refl eq_refl) as (b1 & b2 & H1 & H2 & _ & _).
  exists b1, b2. split; [exact H1|]. split; [exact H2|].
  cbn in H1, H2. injection H1 as <-. injection H2 as <-. reflexivity.
Defined.

Lemma unhex_hex2 b rest :
  unhex (hex2 false b +:+ rest) =
    match unhex rest with Some tl => Some (b :: tl) | None => None end.
Proof. destruct b; reflexivity. Qed.

Lemma hex2_not_None b rest : String.eqb (hex2 false b +:+ rest) "None" = false.
Proof. destruct b; reflexivity. Qed.

Lemma unhex_hex_join l : unhex (hex_join l) = Some l.
Proof.
  induction l as [|b l IH]; [reflexivity|].
  cbn [hex_join fold_right]. fold (hex_join l).
  now rewrite unhex_hex2, IH.
Qed.

Lemma length_hex_join l : String.length (hex_join l) = (2 * length l)%nat.
Proof.
  induction l as [|b l IH]; [reflexivity|].
  change (hex_join (b :: l)) with (hex2 false b +:+ hex_join l).
  change (String.length (hex2 false b +:+ hex_join l))
    with (S (S (String.length (hex_join l)))).
  rewrite IH. cbn [length]. lia.
Qed.

(** X12: for a frame of a type without payload interpretation, the payload
    field is a string from which the payload bytes can be read back:
    ["None"] for the empty payload, and otherwise two lowercase hexadecimal
    digits per byte, in order. *)
Theorem generic_payload_roundtrip dev s frame f :
  ret (decode dev s frame) = Return (Some f) ->
  payload_needed s = 0%nat ->
  exists r, a_payload f = PStr r /\
            (payload s = [] -> r = "None") /\
            ((String.length r = 2 * length (payload s))%nat \/ payload s = []) /\
            unrender r = Some (payload s).
Proof.
  intros H Hgen. apply decode_frame_payload in H.
  unfold format_payload in H. unfold payload_needed in Hgen.
  destruct (read s && String.eqb (type s) "get_fw_version"); [discriminate|].
  destruct (negb (read s) && String.eqb (type s) "power_switch"); [discriminate|].
  destruct (read s && String.eqb (type s) "get_voltage"); [discriminate|].
  destruct (String.eqb (type s) "set_voltage"); [discriminate|].
  injection H as H.
  destruct (payload s) as [|b l].
  - exists "None". rewrite <- H. repeat split; auto.
  - exists (hex_join (b :: l)). split; [rewrite <- H; reflexivity|].
    split; [discriminate|]. split; [left; apply length_hex_join|].
    unfold unrender.
    change (hex_join (b :: l)) with (hex2 false b +:+ hex_join l).
    rewrite hex2_not_None.
    change (hex2 false b +:+ hex_join l) with (hex_join (b :: l)).
    apply unhex_hex_join.
Qed.

Lemma generic_payload_roundtrip_witness :
  exists r,
    a_payload (mkFrame "heart_beat" (Some 0) (Some 45) "response" "5" "22"
                 (PStr "0102") "OK") = PStr r /\
    unrender r = Some [x01; x02].
Proof.
  destruct (generic_payload_roundtrip "dsPIC"
              (closing true "heart_beat" [x01; x02] 30 30) (ev_stop 45) _ eq_refl eq_refl)
    as (r & Hr & _ & _ & Hu).
  exists r. split; [exact Hr|exact Hu].
Defined.

(** ** Decoding a whole frame *)

Section WholeFrame.

Variable dev : string.
Variable rd : bool.
Variable ts : Z -> Z * Z.

(** One byte in a transaction of its own that does not complete the frame,
    in terms of what the data event does to the addressed state. *)
Lemma run_txns_step_state s k b rest tail :
  let s1 := st (decode dev (addressed dev s (ts k).1 rd) (ev_data b)) in
  byte_pos s1 <> frame_len s1 - 1 + preamble_offset s1 ->
  run dev s (txns dev rd ts k (b :: rest) ++ tail)
  = run dev (set_byte_pos (byte_pos s1 + 1)
               (set_last_read (read s1) (set_end_of_frame (Some (ts k).2) s1)))
        (txns dev rd ts (k + 1) rest ++ tail).
Proof.
  intros s1 Hne. cbn [txns]. unfold txn. rewrite <- !app_assoc.
  rewrite run_app by now rewrite run_txn_open_single.
  rewrite run_txn_open_single. cbn [r_state r_frames r_exn app]. fold s1.
  destruct (decode_ev_data_context dev (addressed dev s (ts k).1 rd) b)
    as (_ & _ & _ & Hfu & _).
  fold s1 in Hfu.
  destruct (addressed_fields dev s (ts k).1 rd) as (_ & _ & _ & _ & Hfu0).
  rewrite run_step_none
    by (rewrite decode_ev_stop, decode_stop_advance by congruence; reflexivity).
  rewrite decode_ev_stop, decode_stop_advance by congruence. cbn [st].
  now destruct (run dev _ (txns dev rd ts (k + 1) rest ++ tail)).
Qed.

Lemma addressed_frame_fields s t k L c ty pl cr cc sof :
  frame_fields s k L c ty pl cr cc sof ->
  frame_fields (addressed dev s t rd) k L c ty pl cr cc
    (if k =? 0 then Some t else sof) /\
  for_us (addressed dev s t rd) = true /\
  read (addressed dev s t rd) = rd /\
  preamble_offset (addressed dev s t rd) = preamble_of dev rd.
Proof.
  intros (Hk & HL & Hc & Hty & Hpl & Hcr & Hcc & Hsof).
  unfold addressed, frame_fields. rewrite Hk.
  destruct (k =? 0); hla_simpl; repeat split; assumption.
Qed.

Lemma parse_data_len s b :
  byte_pos s = preamble_offset s ->
  parse_data dev s b = set_frame_len (byte_to_Z b) s.
Proof.
  intros Hpos. unfold parse_data.
  destruct (Z.eqb_spec (byte_pos s) (0 + preamble_offset s)); [reflexivity|lia].
Qed.

Lemma parse_data_payload s b :
  2 + preamble_offset s <= byte_pos s ->
  byte_pos s < frame_len s - 2 + preamble_offset s ->
  parse_data dev s b = set_payload (payload s ++ [b]) s.
Proof.
  intros Hlo Hhi. unfold parse_data.
  destruct (Z.eqb_spec (byte_pos s) (0 + preamble_offset s)); [lia|].
  destruct (Z.eqb_spec (byte_pos s) (1 + preamble_offset s)); [lia|].
  destruct (Z.eqb_spec (byte_pos s) (frame_len s - 2 + preamble_offset s)); [lia|].
  destruct (Z.eqb_spec (byte_pos s) (frame_len s - 1 + preamble_offset s)); [lia|].
  destruct (Z.geb_spec (byte_pos s) (2 + preamble_offset s)); [reflexivity|lia].
Qed.

(** A preamble slot. *)
Lemma stage_slot s k j b rest tail L c ty pl cr cc sof :
  frame_fields s k L c ty pl cr cc sof ->
  preamble_of dev rd = 2 -> k = 0 \/ k = 1 -> k <> L - 1 + 2 ->
  exists s',
    run dev s (txns dev rd ts j (b :: rest) ++ tail)
      = run dev s' (txns dev rd ts (j + 1) rest ++ tail) /\
    frame_fields s' (k + 1) L c ty pl cr cc (if k =? 0 then Some (ts j).1 else sof).
Proof.
  intros Hs Hp Hk Hne.
  destruct (addressed_frame_fields s (ts j).1 _ _ _ _ _ _ _ _ Hs)
    as (H0 & Hfu & Hrd & Hpo).
  rewrite Hp in Hpo.
  destruct H0 as (Hk0 & HL0 & Hc0 & Hty0 & Hpl0 & Hcr0 & Hcc0 & Hsof0).
  destruct (decode_data_slot dev (addressed dev s (ts j).1 rd) b Hfu Hpo)
    as (Hst & _ & _); [now rewrite Hk0|].
  pose proof (run_txns_step_state s j b rest tail) as Hrun.
  cbv zeta in Hrun. rewrite Hst in Hrun.
  eexists. split; [apply Hrun; rewrite Hk0, HL0, Hpo; exact Hne|].
  unfold frame_fields. hla_simpl. repeat split; (assumption || lia).
Qed.

(** The length byte. *)
Lemma stage_length s j b rest tail L c ty pl cr cc sof :
  let p := preamble_of dev rd in
  frame_fields s p L c ty pl cr cc sof ->
  2 < L -> byte_to_Z b <> 1 ->
  exists s',
    run dev s (txns dev rd ts j (b :: rest) ++ tail)
      = run dev s' (txns dev rd ts (j + 1) rest ++ tail) /\
    frame_fields s' (p + 1) (byte_to_Z b) c ty pl cr (cc + byte_to_Z b)
      (if p =? 0 then Some (ts j).1 else sof).
Proof.
  intros p Hs HL Hb.
  pose proof (preamble_of_range dev rd) as Hrange. fold p in Hrange.
  destruct (addressed_frame_fields s (ts j).1 _ _ _ _ _ _ _ _ Hs)
    as (H0 & Hfu & Hrd & Hpo).
  fold p in Hpo.
  destruct H0 as (Hk0 & HL0 & Hc0 & Hty0 & Hpl0 & Hcr0 & Hcc0 & Hsof0).
  set (s0 := addressed dev s (ts j).1 rd) in *.
  assert (Hdec : st (decode dev s0 (ev_data b))
                 = set_frame_len (byte_to_Z b)
                     (set_checksum_calc (cc + byte_to_Z b) s0)).
  { rewrite decode_data_parsed by (assumption || lia). cbn [st].
    rewrite accumulate_eq, Hk0, HL0, Hpo, Hcc0.
    destruct (Z.geb_spec p (0 + p)); [|lia].
    destruct (Z.ltb_spec p (L - 2 + p)); [|lia]. cbn [andb].
    apply parse_data_len. hla_simpl. congruence. }
  pose proof (run_txns_step_state s j b rest tail) as Hrun.
  cbv zeta in Hrun. fold s0 in Hrun. rewrite Hdec in Hrun. hla_simpl_in Hrun.
  eexists. split; [apply Hrun; rewrite Hk0, Hpo; lia|].
  unfold frame_fields. hla_simpl. repeat split; (assumption || lia).
Qed.

(** The code byte of a frame that is not a short frame. *)
Lemma stage_code s j b rest tail L c ty pl cr cc sof :
  let p := preamble_of dev rd in
  frame_fields s (p + 1) L c ty pl cr cc sof ->
  4 <= L -> byte_to_Z b <> 1 ->
  exists s',
    run dev s (txns dev rd ts j (b :: rest) ++ tail)
      = run dev s' (txns dev rd ts (j + 1) rest ++ tail) /\
    frame_fields s' (p + 2) L (byte_to_Z b) (get_type dev (byte_to_Z b)) pl cr
      (cc + byte_to_Z b) sof.
Proof.
  intros p Hs HL Hb.
  pose proof (preamble_of_range dev rd) as Hrange. fold p in Hrange.
  destruct (addressed_frame_fields s (ts j).1 _ _ _ _ _ _ _ _ Hs)
    as (H0 & Hfu & Hrd & Hpo).
  fold p in Hpo.
  destruct (Z.eqb_spec (p + 1) 0) as [|_]; [lia|].
  destruct H0 as (Hk0 & HL0 & Hc0 & Hty0 & Hpl0 & Hcr0 & Hcc0 & Hsof0).
  set (s0 := addressed dev s (ts j).1 rd) in *.
  assert (Hdec : st (decode dev s0 (ev_data b))
                 = set_type (get_type dev (byte_to_Z b))
                     (set_code (byte_to_Z b)
                        (set_checksum_calc (cc + byte_to_Z b) s0))).
  { rewrite decode_data_parsed by (assumption || lia). cbn [st].
    rewrite accumulate_eq, Hk0, HL0, Hpo, Hcc0.
    destruct (Z.geb_spec (p + 1) (0 + p)); [|lia].
    destruct (Z.ltb_spec (p + 1) (L - 2 + p)); [|lia]. cbn [andb].
    rewrite parse_data_code by (hla_simpl; lia).
    destruct (Z.eqb_spec (byte_to_Z b) 1); [contradiction|]. reflexivity. }
  pose proof (run_txns_step_state s j b rest tail) as Hrun.
  cbv zeta in Hrun. fold s0 in Hrun. rewrite Hdec in Hrun. hla_simpl_in Hrun.
  eexists. split; [apply Hrun; rewrite Hk0, HL0, Hpo; lia|].
  unfold frame_fields. hla_simpl. repeat split; (assumption || lia).
Qed.

(** A payload byte. *)
Lemma stage_payload s k j b rest tail L c ty pl cr cc sof :
  let p := preamble_of dev rd in
  frame_fields s k L c ty pl cr cc sof ->
  p + 2 <= k -> k < L - 2 + p ->
  exists s',
    run dev s (txns dev rd ts j (b :: rest) ++ tail)
      = run dev s' (txns dev rd ts (j + 1) rest ++ tail) /\
    frame_fields s' (k + 1) L c ty (pl ++ [b]) cr (cc + byte_to_Z b) sof.
Proof.
  intros p Hs Hlo Hhi.
  pose proof (preamble_of_range dev rd) as Hrange. fold p in Hrange.
  destruct (addressed_frame_fields s (ts j).1 _ _ _ _ _ _ _ _ Hs)
    as (H0 & Hfu & Hrd & Hpo).
  fold p in Hpo.
  destruct (Z.eqb_spec k 0) as [|_]; [lia|].
  destruct H0 as (Hk0 & HL0 & Hc0 & Hty0 & Hpl0 & Hcr0 & Hcc0 & Hsof0).
  set (s0 := addressed dev s (ts j).1 rd) in *.
  assert (Hdec : st (decode dev s0 (ev_data b))
                 = set_payload (pl ++ [b])
                     (set_checksum_calc (cc + byte_to_Z b) s0)).
  { rewrite decode_data_parsed by (assumption || lia). cbn [st].
    rewrite accumulate_eq, Hk0, HL0, Hpo, Hcc0.
    destruct (Z.geb_spec k (0 + p)); [|lia].
    destruct (Z.ltb_spec k (L - 2 + p)); [|lia]. cbn [andb].
    rewrite parse_data_payload by (hla_simpl; lia).
    hla_simpl. now rewrite Hpl0. }
  pose proof (run_txns_step_state s j b rest tail) as Hrun.
  cbv zeta in Hrun. fold s0 in Hrun. rewrite Hdec in Hrun. hla_simpl_in Hrun.
  eexists. split; [apply Hrun; rewrite Hk0, HL0, Hpo; lia|].
  unfold frame_fields. hla_simpl. repeat split; (assumption || lia).
Qed.

(** The payload bytes of a frame. *)
Lemma stage_payloads L c ty cr sof pl' : forall s k j rest tail pl cc,
  let p := preamble_of dev rd in
  frame_fields s k L c ty pl cr cc sof ->
  p + 2 <= k -> k + Z.of_nat (length pl') <= L - 2 + p ->
  exists s',
    run dev s (txns dev rd ts j (pl' ++ rest) ++ tail)
      = run dev s' (txns dev rd ts (j + Z.of_nat (length pl')) rest ++ tail) /\
    frame_fields s' (k + Z.of_nat (length pl')) L c ty (pl ++ pl') cr
      (cc + sum_bytes pl') sof.
Proof.
  induction pl' as [|b pl' IH]; intros s k j rest tail pl cc p Hs Hlo Hhi.
  - exists s. cbn [app length Z.of_nat sum_bytes fold_right].
    rewrite !Z.add_0_r, app_nil_r. split; [reflexivity|exact Hs].
  - cbn [length] in Hhi.
    destruct (stage_payload s k j b (pl' ++ rest) tail L c ty pl cr cc sof Hs)
      as (s1 & Hrun1 & Hs1); [fold p; lia|fold p; lia|].
    destruct (IH s1 (k + 1) (j + 1) rest tail (pl ++ [b])%list (cc + byte_to_Z b) Hs1)
      as (s2 & Hrun2 & Hs2); [fold p; lia|fold p; lia|].
    exists s2. cbn [app length]. rewrite Hrun1, Hrun2.
    replace (j + 1 + Z.of_nat (length pl')) with (j + Z.of_nat (S (length pl')))
      by lia.
    split; [reflexivity|].
    replace (k + Z.of_nat (S (length pl'))) with (k + 1 + Z.of_nat (length pl'))
      by lia.
    rewrite <- app_assoc in Hs2. cbn [app] in Hs2.
    replace (cc + sum_bytes (b :: pl')) with (cc + byte_to_Z b + sum_bytes pl')
      by (cbn [sum_bytes fold_right]; unfold sum_bytes; lia).
    exact Hs2.
Qed.

(** The preamble of a frame. *)
Lemma stage_preamble s pre rest tail L c ty pl cr cc sof :
  let p := preamble_of dev rd in
  frame_fields s 0 L c ty pl cr cc sof ->
  Z.of_nat (length pre) = p -> 2 < L ->
  exists s',
    run dev s (txns dev rd ts 0 (pre ++ rest) ++ tail)
      = run dev s' (txns dev rd ts p rest ++ tail) /\
    frame_fields s' p L c ty pl cr cc (if p =? 0 then sof else Some (ts 0).1).
Proof.
  intros p Hs Hlen HL.
  destruct (preamble_of_range dev rd) as [Hp|Hp]; fold p in Hp; rewrite Hp in *.
  - destruct pre; [|cbn in Hlen; lia]. exists s. split; [reflexivity|exact Hs].
  - destruct pre as [|a0 [|a1 [|a2 pre]]]; cbn in Hlen; try lia.
    cbn [app].
    destruct (stage_slot s 0 0 a0 (a1 :: rest) tail L c ty pl cr cc sof Hs)
      as (s1 & Hrun1 & Hs1); [exact Hp|now left|lia|].
    destruct (stage_slot s1 (0 + 1) (0 + 1) a1 rest tail L c ty pl cr cc _ Hs1)
      as (s2 & Hrun2 & Hs2); [exact Hp|now right|lia|].
    exists s2. rewrite Hrun1, Hrun2. split; [reflexivity|exact Hs2].
Qed.

Lemma format_payload_ext s s' :
  read s = read s' -> type s = type s' -> payload s = payload s' ->
  format_payload s = format_payload s'.
Proof.
  intros H1 H2 H3. unfold format_payload, payload_at. now rewrite H1, H2, H3.
Qed.

End WholeFrame.

(** X13: a well-formed frame, fed one byte per transaction (all of one
    direction) to an analyzer that is at the start of a frame: the preamble
    bytes the direction calls for, a length byte [L >= 4], a code byte other
    than 1, [L - 4] payload bytes and two checksum bytes.  Provided the
    payload is long enough for the interpretation of its type, exactly one
    frame is returned, at the last stop event: it carries the type of the code
    (with ["_resp"] on a read of a request/response type), the start time of
    the first transaction and the end time of the last, the direction, the
    declared length, the code, the rendered payload, and the verdict of the
    transmitted checksum against the sum of length, code and payload bytes.
    The analyzer is then at the start of a frame again. *)
Theorem frame_decoded dev rd ts s pre bL bc pl c1 c2 rendered :
  let p := preamble_of dev rd in
  let L := byte_to_Z bL in
  let c := byte_to_Z bc in
  let ty := get_type dev c in
  byte_pos s = 0 -> frame_len s = 99 -> payload s = [] -> checksum_calc s = 0 ->
  Z.of_nat (length pre) = p ->
  4 <= L -> c <> 1 -> Z.of_nat (length pl) = L - 4 ->
  render_payload rd ty pl = Some rendered ->
  let r := run dev s (txns dev rd ts 0 (pre ++ bL :: bc :: pl ++ [c1; c2])%list) in
  r_exn r = None /\
  r_frames r =
    [ {| a_type := if rd && is_resp_type ty then ty +:+ "_resp" else ty;
         a_start_time := Some (ts 0).1;
         a_end_time := Some (ts (p + L - 1)).2;
         a_direction := if rd then "response" else "request";
         a_len := str L;
         a_code := str c;
         a_payload := rendered;
         a_checksum :=
           checksum_verdict
             (if String.eqb dev "APW" && rd
              then byte_to_Z c1 + Z.shiftl (byte_to_Z c2) 8
              else Z.shiftl (byte_to_Z c1) 8 + byte_to_Z c2)
             (sum_bytes (bL :: bc :: pl)) |} ] /\
  byte_pos (r_state r) = 0 /\ frame_len (r_state r) = 99 /\
  payload (r_state r) = [] /\ checksum_calc (r_state r) = 0.
Proof.
  intros p L c ty Hbp Hfl Hpl Hcc Hpre HL Hc Hlen Hrender r. subst r.
  pose proof (preamble_of_range dev rd) as Hrange. fold p in Hrange.
  assert (Hs : frame_fields s 0 99 (code s) (type s) [] (checksum_read s) 0
                 (start_of_frame s)) by (repeat split; assumption).
  rewrite <- (app_nil_r (txns _ _ _ _ _)).
  (* preamble *)
  destruct (stage_preamble dev rd ts s pre (bL :: bc :: pl ++ [c1; c2]) []
              _ _ _ _ _ _ _ Hs Hpre) as (sA & HrunA & HsA); [lia|].
  fold p in HrunA, HsA. rewrite HrunA.
  (* length byte *)
  destruct (stage_length dev rd ts sA p bL (bc :: pl ++ [c1; c2]) []
              _ _ _ _ _ _ _ HsA) as (sB & HrunB & HsB); [lia|fold L; lia|].
  fold p L in HrunB, HsB. rewrite HrunB.
  assert (Hsof : (if p =? 0 then Some (ts p).1
                  else if p =? 0 then start_of_frame s else Some (ts 0).1)
                 = Some (ts 0).1).
  { destruct (Z.eqb_spec p 0) as [->|]; reflexivity. }
  rewrite Hsof in HsB.
  (* code byte *)
  destruct (stage_code dev rd ts sB (p + 1) bc (pl ++ [c1; c2]) []
              _ _ _ _ _ _ _ HsB) as (sC & HrunC & HsC); [exact HL|exact Hc|].
  fold p c ty in HrunC, HsC. rewrite HrunC.
  (* payload bytes *)
  destruct (stage_payloads dev rd ts L c ty (checksum_read s) (Some (ts 0).1) pl
              sC (p + 2) (p + 1 + 1) [c1; c2] [] [] (0 + L + c) HsC)
    as (sD & HrunD & HsD); [fold p; lia|fold p; lia|].
  rewrite HrunD. cbn [app] in HsD.
  replace (p + 2 + Z.of_nat (length pl)) with (L - 2 + p) in HsD by lia.
  replace (p + 1 + 1 + Z.of_nat (length pl)) with (p + L - 2) by lia.
  (* the two checksum bytes *)
  destruct (addressed_frame_fields dev rd sD (ts (p + L - 2)).1 _ _ _ _ _ _ _ _ HsD)
    as (HsE & HfuE & HrdE & HpoE).
  fold p in HpoE.
  destruct (Z.eqb_spec (L - 2 + p) 0) as [|_]; [lia|].
  destruct HsE as (HkE & HLE & HcE & HtyE & HplE & HcrE & HccE & HsofE).
  set (sE := addressed dev sD (ts (p + L - 2)).1 rd) in *.
  change (txns dev rd ts (p + L - 2) [c1; c2] ++ [])%list
    with (ev_start (ts (p + L - 2)).1 :: ev_address (addr_of dev) rd
          :: checksum_events dev sE c1 c2 (ts (p + L - 2)).2 (ts (p + L - 2 + 1)).1
          ++ [ev_stop (ts (p + L - 2 + 1)).2])%list.
  rewrite (run_step_none dev sD (ev_start _)) by reflexivity.
  rewrite decode_ev_start. cbn [st].
  rewrite run_step_none by now rewrite decode_ev_address.
  rewrite decode_ev_address. cbn [st]. fold (addressed dev sD (ts (p + L - 2)).1 rd).
  fold sE.
  destruct (run_checksum_events dev sE c1 c2 (ts (p + L - 2)).2 (ts (p + L - 2 + 1)).1)
    as (Hex & Hfr & HcrF & HccF & HbpF & HflF & HpoF & HfuF & HrdF & HtyF & HplF
        & HcoF & HsofF);
    [exact HfuE|rewrite HrdE; exact HpoE|rewrite HkE, HLE, HpoE; reflexivity|
     rewrite HLE; exact HL|].
  rewrite run_app by exact Hex. rewrite Hfr.
  set (sF := r_state (run dev sE (checksum_events dev sE c1 c2 _ _))) in *.
  (* the last stop *)
  cbn [run app]. rewrite decode_ev_stop.
  rewrite decode_stop_complete by congruence.
  assert (Hfp : format_payload sF = Some rendered).
  { rewrite <- Hrender. unfold render_payload. apply format_payload_ext;
      hla_simpl; congruence. }
  rewrite Hfp. cbn [ret st r_exn r_frames r_state option_list app].
  split; [reflexivity|]. split.
  - f_equal. rewrite HrdF, HrdE, HtyF, HtyE, HsofF, HsofE, HflF, HLE, HcoF, HcE.
    rewrite HcrF, HccF, HccE. unfold assembled, checksum_le. rewrite HrdE.
    replace (p + L - 2 + 1) with (p + L - 1) by lia.
    replace (0 + L + c + sum_bytes pl) with (sum_bytes (bL :: bc :: pl))
      by (cbn [sum_bytes fold_right]; fold L c; unfold sum_bytes; lia).
    reflexivity.
  - unfold reset_frame. hla_simpl. repeat split.
Qed.

Lemma frame_decoded_witness :
  r_frames (run "dsPIC" init
              (txns "dsPIC" true (fun k => (10 * k, 10 * k + 5)) 0
                 [x05; x17; x07; x00; x23]))
  = [ mkFrame "get_fw_version_resp" (Some 0) (Some 45) "response" "5" "23"
        (PStr "7") "OK" ].
Proof.
  refine (proj1 (proj2 (frame_decoded "dsPIC" true (fun k => (10 * k, 10 * k + 5))
            init [] x05 x17 [x07] x00 x23 (PStr "7")
            eq_refl eq_refl eq_refl eq_refl eq_refl _ _ eq_refl eq_refl))).
  - vm_compute. discriminate.
  - vm_compute. discriminate.
Defined.
